(** * PetaLinux configuration store and hardware-flow helpers

    A shallow embedding of [scripts/libs/common_utils.py] and
    [libs/plnx_utils.py], and the properties of the KConfig-style
    configuration store ([get_config_value] / [update_config_value]) and of
    the routines that derive build parameters from it.

    Conventions of the embedding.
    - A Python [str] is a list of characters; a character is a code point
      below 256, carried by [ascii].
    - The file system is a finite map from paths to the text of regular
      files.  Directories, permissions and decoding errors are not
      modelled: opening an existing file for reading and opening any path
      for writing succeed.  Files are opened in text mode: reading turns
      [\r\n] and [\r] into [\n], and writing stores the text as it is
      (the line separator of the platform is [\n]).
    - Side effects are threaded by a state-and-exception monad over the file
      system; Python exceptions are values of [exn].
    - Python's [re] engine is an interface ([PyRe]); the only fact assumed
      of it is that a pattern without metacharacters is searched as a
      literal substring.
    - The module [plnx_vars] is a record of constants.
    - What a function asks of the operating system beyond the text of
      files (the working directory, canonical paths, the existence of
      directories, the output of a command) is a variable of that
      function. *)

From Stdlib Require Import Ascii String ZArith Lia DecimalString.
From stdpp Require Import base option list strings gmap.

#[local] Set Warnings "-clear-no-such-hyp".

Open Scope list_scope.

(** ** Python strings *)

Abbreviation str := (list ascii).

(** A string literal of the source. *)
Definition py (s : string) : str := list_ascii_of_string s.

Module PyStr.

Definition LF : ascii := ascii_of_nat 10.
Definition CR : ascii := ascii_of_nat 13.
Definition QUOTE : ascii := ascii_of_nat 34.
Definition EQUALS : ascii := ascii_of_nat 61.

Definition code (c : ascii) : N := N_of_ascii c.

(** [str.isspace] on one code point below 256. *)
Definition is_space (c : ascii) : bool :=
  let n := code c in
  ((9 <=? n) && (n <=? 13) || (28 <=? n) && (n <=? 32)
   || (n =? 133) || (n =? 160))%N.

(** [s.lstrip()], [s.rstrip()], [s.strip()] *)
Fixpoint lstrip (s : str) : str :=
  match s with
  | [] => []
  | c :: s' => if is_space c then lstrip s' else s
  end.

Definition rstrip (s : str) : str := rev (lstrip (rev s)).

Definition strip (s : str) : str := rstrip (lstrip s).

(** [s.startswith(p)] *)
Fixpoint startswith (s p : str) {struct p} : bool :=
  match p, s with
  | [], _ => true
  | _ :: _, [] => false
  | a :: p', b :: s' => bool_decide (a = b) && startswith s' p'
  end.

(** [s.endswith(q)] *)
Definition endswith (s q : str) : bool := startswith (rev s) (rev q).

(** [p in s]: [p] occurs in [s] as a contiguous substring. *)
Fixpoint contains (s p : str) : bool :=
  startswith s p ||
  match s with
  | [] => false
  | _ :: s' => contains s' p
  end.

(** [s.replace(old, '')]: occurrences of [old] are deleted from left to
    right without overlap; [skip] counts the characters of the
    occurrence under deletion that are still to be dropped. *)
Fixpoint remove_from (old : str) (skip : nat) (s : str) : str :=
  match s with
  | [] => []
  | c :: s' =>
      match skip with
      | S k => remove_from old k s'
      | O => if startswith s old
             then remove_from old (length old - 1) s'
             else c :: remove_from old 0 s'
      end
  end.

Definition remove_all (s old : str) : str :=
  match old with
  | [] => s
  | _ :: _ => remove_from old 0 s
  end.

(** [s.lower()] on code points below 256. *)
Definition lower_char (c : ascii) : ascii :=
  let n := code c in
  if ((65 <=? n) && (n <=? 90)
      || (192 <=? n) && (n <=? 222) && negb (n =? 215))%N
  then ascii_of_N (n + 32) else c.

Definition lower (s : str) : str := map lower_char s.

(** [s.split(sep)] for a one-character separator. *)
Fixpoint split (sep : ascii) (s : str) : list str :=
  match s with
  | [] => [[]]
  | c :: s' =>
      if bool_decide (c = sep) then [] :: split sep s'
      else match split sep s' with
           | w :: ws => (c :: w) :: ws
           | [] => [[c]]
           end
  end.

(** Text-mode reading with universal newlines: [\r\n] and a lone [\r]
    both arrive as [\n]. *)
Fixpoint universal_newlines (s : str) : str :=
  match s with
  | [] => []
  | c :: s' =>
      if bool_decide (c = CR) then
        LF :: match s' with
              | d :: s'' => if bool_decide (d = LF) then universal_newlines s''
                            else universal_newlines s'
              | [] => []
              end
      else c :: universal_newlines s'
  end.

(** Splitting a text into lines that keep their terminating [\n];
    [cur] is the line under construction. *)
Fixpoint split_lines (cur : str) (s : str) : list str :=
  match s with
  | [] => match cur with [] => [] | _ :: _ => [cur] end
  | c :: s' =>
      if bool_decide (c = LF) then (cur ++ [LF]) :: split_lines [] s'
      else split_lines (cur ++ [c]) s'
  end.

(** [f.readlines()] on a file opened in text mode with content [s]. *)
Definition readlines (s : str) : list str :=
  split_lines [] (universal_newlines s).

(** Truthiness of a string. *)
Definition nonempty (s : str) : bool :=
  match s with [] => false | _ :: _ => true end.

(** [s.replace(old, new)]: the occurrences of [old] are replaced from left
    to right without overlap; with an empty [old], [new] is put before
    every character and at the end. *)
Fixpoint replace_from (old new : str) (skip : nat) (s : str) : str :=
  match s with
  | [] => []
  | c :: s' =>
      match skip with
      | S k => replace_from old new k s'
      | O => if startswith s old
             then new ++ replace_from old new (length old - 1) s'
             else c :: replace_from old new 0 s'
      end
  end.

Definition replace (s old new : str) : str :=
  match old with
  | [] => new ++ flat_map (fun c => c :: new) s
  | _ :: _ => replace_from old new 0 s
  end.

(** [s.split()]: the maximal runs of characters that are not whitespace;
    [cur] is the run under construction. *)
Fixpoint split_ws (cur : str) (s : str) : list str :=
  match s with
  | [] => match cur with [] => [] | _ :: _ => [cur] end
  | c :: s' =>
      if is_space c
      then match cur with [] => [] | _ :: _ => [cur] end ++ split_ws [] s'
      else split_ws (cur ++ [c]) s'
  end.

(** [s.count(c)] for a one-character [c]. *)
Definition count_char (c : ascii) (s : str) : nat :=
  length (filter (fun x => x = c) s).

(** [int(s)]: surrounding whitespace and a sign are accepted, then
    decimal digits, between which single underscores may stand; anything
    else gives no number. *)
Definition dec_digit (c : ascii) : option Z :=
  let n := Z.of_N (code c) in
  (if (48 <=? n) && (n <=? 57) then Some (n - 48) else None)%Z.

Fixpoint int10_digits (acc : Z) (prev_us : bool) (s : str) : option Z :=
  match s with
  | [] => if prev_us then None else Some acc
  | c :: s' =>
      if bool_decide (c = ascii_of_nat 95) then
        if prev_us then None else int10_digits acc true s'
      else
        match dec_digit c with
        | Some d => int10_digits (acc * 10 + d)%Z false s'
        | None => None
        end
  end.

Definition int10_unsigned (s : str) : option Z :=
  match s with
  | [] => None
  | c :: s' =>
      match dec_digit c with
      | Some d => int10_digits d false s'
      | None => None
      end
  end.

Definition int10 (s : str) : option Z :=
  match strip s with
  | c :: t' =>
      if bool_decide (c = ascii_of_nat 45) then Z.opp <$> int10_unsigned t'
      else if bool_decide (c = ascii_of_nat 43) then int10_unsigned t'
      else int10_unsigned (c :: t')
  | [] => None
  end.

(** [bin(n)] *)
Fixpoint bin_digits (p : positive) (acc : str) : str :=
  match p with
  | xH => "1"%char :: acc
  | xO q => bin_digits q ("0"%char :: acc)
  | xI q => bin_digits q ("1"%char :: acc)
  end.

Definition bin (n : Z) : str :=
  match n with
  | Z0 => py "0b0"
  | Zpos p => py "0b" ++ bin_digits p []
  | Zneg p => py "-0b" ++ bin_digits p []
  end.

(** [os.path.dirname(p)] of [posixpath]: the part before the last slash,
    without its trailing slashes unless it is made of slashes only.
    Both helpers work on the reversed path. *)
Fixpoint drop_to_slash (r : str) : str :=
  match r with
  | [] => []
  | c :: r' => if bool_decide (c = "/"%char) then r else drop_to_slash r'
  end.

Fixpoint drop_slashes (r : str) : str :=
  match r with
  | [] => []
  | c :: r' => if bool_decide (c = "/"%char) then drop_slashes r' else r
  end.

Definition dirname (p : str) : str :=
  let head := drop_to_slash (rev p) in
  if nonempty head && negb (forallb (fun c => bool_decide (c = "/"%char)) head)
  then rev (drop_slashes head)
  else rev head.

(** [os.path.join(a, b)] of [posixpath]. *)
Definition os_path_join (a b : str) : str :=
  if startswith b (py "/") then b
  else if negb (nonempty a) || endswith a (py "/") then a ++ b
  else a ++ py "/" ++ b.

End PyStr.

Import PyStr.


(** ** Python's [re] module

    [re_search p s] is [re.search(p, s) is not None] and [re_match p s] is
    [re.match(p, s) is not None], for patterns that compile.  A pattern
    made of characters other than the metacharacters of [re] matches
    itself, so searching it is searching a substring. *)

Definition metachar (c : ascii) : bool :=
  bool_decide (c ∈ py ".^$*+?{}[]\|()").

Definition literal_pattern (p : str) : Prop :=
  Forall (fun c => metachar c = false) p.

Class PyRe := {
  re_search : str -> str -> bool;
  re_match : str -> str -> bool;
  re_search_literal :
    forall p s, literal_pattern p -> re_search p s = contains s p
}.

(** ** Exceptions, the world and the monad of effects *)

Inductive exn :=
| NameError (name : string)
| IndexError
| ValueError
| FileNotFoundError
| EOFError.

Inductive res (A : Type) :=
| Ok (a : A)
| Raise (e : exn).

Arguments Ok {A} a.
Arguments Raise {A} e.

(** The part of the process environment the routines touch: regular files
    by path, the environment variables, and the lines the user will type
    at the terminal. *)
Record world := World {
  files : gmap string str;
  environ : gmap string str;
  stdin : list str
}.

Definition set_files (f : gmap string str -> gmap string str) (w : world) : world :=
  World (f (files w)) (environ w) (stdin w).

Definition M (A : Type) : Type := world -> world * res A.

Definition ret {A} (a : A) : M A := fun w => (w, Ok a).

Definition raise {A} (e : exn) : M A := fun w => (w, Raise e).

Definition bind {A B} (c : M A) (k : A -> M B) : M B :=
  fun w =>
    match c w with
    | (w', Ok a) => k a w'
    | (w', Raise e) => (w', Raise e)
    end.

Definition lift {A} (r : res A) : M A := fun w => (w, r).

Notation "'let!' x := c 'in' k" := (bind c (fun x => k))
  (at level 10, x name, c at level 100, k at level 200, only parsing).
Notation "c >> k" := (bind c (fun _ => k))
  (at level 100, k at level 200, right associativity, only parsing).

(** [os.path.exists(p)] *)
Definition os_path_exists (p : string) : M bool :=
  fun w => (w, Ok (bool_decide (is_Some (files w !! p)))).

(** [with open(p, 'r') as f: f.readlines()] *)
Definition open_readlines (p : string) : M (list str) :=
  fun w =>
    match files w !! p with
    | Some c => (w, Ok (readlines c))
    | None => (w, Raise FileNotFoundError)
    end.

(** [open(p, 'w')]: the file is created or truncated. *)
Definition open_w (p : string) : M unit :=
  fun w => (set_files <[p := []]> w, Ok tt).

(** [open(p, 'a')]: the file is created if absent, its content is kept. *)
Definition open_a (p : string) : M unit :=
  fun w => (set_files <[p := default [] (files w !! p)]> w, Ok tt).

(** [f.write(s)] on a handle opened for writing or appending on [p]. *)
Definition file_write (p : string) (s : str) : M unit :=
  fun w => (set_files <[p := default [] (files w !! p) ++ s]> w, Ok tt).

(** [os.environ.get(k, '')] *)
Definition environ_get (k : string) : M str :=
  fun w => (w, Ok (default [] (environ w !! k))).

(** [input(prompt)]: the next line typed by the user. *)
Definition input (prompt : str) : M str :=
  fun w =>
    match stdin w with
    | l :: rest => (World (files w) (environ w) rest, Ok l)
    | [] => (w, Raise EOFError)
    end.

(** [with open(p, 'r') as f: f.read()] *)
Definition open_read (p : string) : M str :=
  fun w =>
    match files w !! p with
    | Some c => (w, Ok (universal_newlines c))
    | None => (w, Raise FileNotFoundError)
    end.

(** [os.remove(p)] *)
Definition os_remove (p : string) : M unit :=
  fun w =>
    match files w !! p with
    | Some _ => (set_files (delete p) w, Ok tt)
    | None => (w, Raise FileNotFoundError)
    end.

(** The modes [open] is called with. *)
Inductive open_mode := mode_w | mode_a | mode_a_plus.

Definition open_for (mode : open_mode) (p : string) : M unit :=
  match mode with
  | mode_w => open_w p
  | mode_a | mode_a_plus => open_a p
  end.

(** A name that is bound nowhere: evaluating it raises [NameError]. *)
Definition unbound_name {A} (name : string) : M A := raise (NameError name).

(** ** scripts/libs/common_utils.py *)

Module common_utils.

(** *** [int(s, base=16)] and [hex(n)] *)

Definition hex_digit (c : ascii) : option Z :=
  let n := Z.of_N (code c) in
  (if (48 <=? n) && (n <=? 57) then Some (n - 48)
   else if (97 <=? n) && (n <=? 102) then Some (n - 87)
   else if (65 <=? n) && (n <=? 70) then Some (n - 55)
   else None)%Z.

Definition UNDERSCORE : ascii := ascii_of_nat 95.

(** The digits after the first one; single underscores may separate
    digits, and [prev_us] tells that the previous character was one. *)
Fixpoint int16_digits (acc : Z) (prev_us : bool) (s : str) : option Z :=
  match s with
  | [] => if prev_us then None else Some acc
  | c :: s' =>
      if bool_decide (c = UNDERSCORE) then
        if prev_us then None else int16_digits acc true s'
      else
        match hex_digit c with
        | Some d => int16_digits (acc * 16 + d)%Z false s'
        | None => None
        end
  end.

(** An optional [0x] or [0X] prefix, after which one underscore is
    allowed, then at least one digit. *)
Definition int16_unsigned (s : str) : option Z :=
  let body :=
    match s with
    | z :: x :: rest =>
        if bool_decide (z = ascii_of_nat 48)
           && (bool_decide (x = ascii_of_nat 120)
               || bool_decide (x = ascii_of_nat 88))
        then match rest with
             | u :: rest' =>
                 if bool_decide (u = UNDERSCORE) then rest' else rest
             | [] => rest
             end
        else s
    | _ => s
    end in
  match body with
  | [] => None
  | c :: s' =>
      match hex_digit c with
      | Some d => int16_digits d false s'
      | None => None
      end
  end.

(** [int(s, base=16)]: surrounding whitespace and a sign are accepted;
    anything else that is not a hexadecimal numeral is a [ValueError]. *)
Definition int16 (s : str) : res Z :=
  let t := strip s in
  let r :=
    match t with
    | c :: t' =>
        if bool_decide (c = ascii_of_nat 45) then Z.opp <$> int16_unsigned t'
        else if bool_decide (c = ascii_of_nat 43) then int16_unsigned t'
        else int16_unsigned t
    | [] => None
    end in
  match r with Some z => Ok z | None => Raise ValueError end.

Definition hex_char (d : Z) : ascii :=
  (if d <? 10 then ascii_of_N (Z.to_N (d + 48))
   else ascii_of_N (Z.to_N (d + 87)))%Z.

Fixpoint hex_digits (fuel : nat) (n : Z) (acc : str) : str :=
  match fuel with
  | O => acc
  | S k =>
      let acc' := hex_char (n mod 16)%Z :: acc in
      if (n / 16 =? 0)%Z then acc' else hex_digits k (n / 16)%Z acc'
  end.

(** [hex(n)] *)
Definition hex (n : Z) : str :=
  let a := Z.abs n in
  (if (n <? 0)%Z then py "-0x" else py "0x")
    ++ hex_digits (S (Z.to_nat (Z.log2 a))) a [].

(** [str(n)] for a natural number, as [%s] formats it. *)
Definition str_of_nat (n : nat) : str :=
  py (NilZero.string_of_uint (Nat.to_uint n)).

Section WithRe.
Context `{PyRe}.

(** The idiom [lines = []; if os.path.exists(filename): ... readlines()]. *)
Definition lines_if_exists (filename : string) : M (list str) :=
  let! e := os_path_exists filename in
  if e then open_readlines filename else ret [].

Definition CreateFile (filepath : string) : M unit :=
  let! e := os_path_exists filepath in
  if e then ret tt else open_w filepath.

Definition add_offsets (start end_ : str) : M str :=
  let! a := lift (int16 start) in
  let! b := lift (int16 end_) in
  ret (hex (a + b)%Z).

Definition add_str_to_file (filename : string) (string : str)
    (ignore_if_exists : bool) (mode : open_mode) : M unit :=
  let! lines := lines_if_exists filename in
  let string_found :=
    fold_left (fun found line => if re_match string line then true else found)
              lines false in
  if negb ignore_if_exists || negb string_found then
    open_for mode filename >> file_write filename string
  else ret tt.

(** The two patterns of [update_config_value] and its test on a line. *)
Definition not_set_line (macro : str) : str :=
  py "# " ++ macro ++ py " is not set".

Definition assign_prefix (macro : str) : str := macro ++ py "=".

Definition line_hit (macro line : str) : bool :=
  re_search (not_set_line macro) line || re_search (assign_prefix macro) line.

(** The loop that copies the lines that are kept. *)
Fixpoint write_kept (macro : str) (filename : string) (lines : list str)
    : M unit :=
  match lines with
  | [] => ret tt
  | line :: rest =>
      (if line_hit macro line then ret tt else file_write filename line) >>
      write_kept macro filename rest
  end.

(** The text written last. *)
Definition new_entry (macro value : str) : str :=
  if decide (value = py "disable") then not_set_line macro ++ [LF]
  else assign_prefix macro ++ value ++ [LF].

Definition update_config_value (macro value : str) (filename : string)
    : M unit :=
  let! lines := lines_if_exists filename in
  open_w filename >>
  write_kept macro filename lines >>
  file_write filename (new_entry macro value).

(** The four scanning loops of [get_config_value]. *)
Fixpoint scan_bool (macro : str) (lines : list str) : str :=
  match lines with
  | [] => []
  | line :: rest =>
      let line := strip line in
      if startswith line (assign_prefix macro)
      then remove_all (remove_all line (assign_prefix macro)) [QUOTE]
      else scan_bool macro rest
  end.

Fixpoint scan_choice (macro end_macro : str) (lines : list str) : str :=
  match lines with
  | [] => []
  | line :: rest =>
      let line := strip line in
      if startswith line macro && endswith line end_macro
      then remove_all (remove_all line macro) end_macro
      else scan_choice macro end_macro rest
  end.

Fixpoint scan_choicelist (macro end_macro : str) (value : str)
    (lines : list str) : str :=
  match lines with
  | [] => value
  | line :: rest =>
      let line := strip line in
      if startswith line macro && endswith line end_macro
      then scan_choicelist macro end_macro
             (value ++ py " " ++ remove_all (remove_all line macro) end_macro)
             rest
      else scan_choicelist macro end_macro value rest
  end.

Fixpoint scan_asterisk (macro end_macro : str) (lines : list str) : res str :=
  match lines with
  | [] => Ok []
  | line :: rest =>
      let line := strip line in
      if startswith line macro && re_search end_macro line
      then match split EQUALS line !! 1%nat with
           | Some v => Ok (remove_all v [QUOTE])
           | None => Raise IndexError
           end
      else scan_asterisk macro end_macro rest
  end.

Definition get_config_value (macro : str) (filename : string)
    (Type_ end_macro : str) : M str :=
  let! lines := lines_if_exists filename in
  if decide (Type_ = py "bool") then ret (scan_bool macro lines)
  else if decide (Type_ = py "choice")
  then ret (scan_choice macro end_macro lines)
  else if decide (Type_ = py "choicelist")
  then ret (scan_choicelist macro end_macro [] lines)
  else if decide (Type_ = py "asterisk")
  then lift (scan_asterisk macro end_macro lines)
  else ret [].

(** The call with the default arguments [Type='bool', end_macro='=y']. *)
Definition get_config_value_bool (macro : str) (filename : string) : M str :=
  get_config_value macro filename (py "bool") (py "=y").

Definition RemoveFile (filepath : string) : M unit :=
  let! e := os_path_exists filepath in
  if e then os_remove filepath else ret tt.



Definition concate_files (fromfile tofile : string) : M unit :=
  open_a tofile >>
  let! text := open_read fromfile in
  file_write tofile text.

End WithRe.
(** *** [add_dictkey]

    The dictionary has strings as keys; a value is a string or a
    dictionary from strings to strings, the two shapes [add_dictkey]
    itself creates.  The dictionary is shared with the caller: a call
    returns the dictionary it leaves, also when it raises. *)

Inductive dict_value :=
| VStr (s : str)
| VDict (d : gmap string str).

Inductive dict_exn :=
| KeyError (k : string)
| TypeError.

Abbreviation dict := (gmap string dict_value).

(** [Dict[key][sub_key]] *)
Definition dict_get2 (Dict : dict) (key sub_key : string) : dict_exn + str :=
  match Dict !! key with
  | None => inl (KeyError key)
  | Some (VStr _) => inl TypeError
  | Some (VDict d) =>
      match d !! sub_key with
      | None => inl (KeyError sub_key)
      | Some v => inr v
      end
  end.

(** [Dict[key][sub_key] = value] *)
Definition dict_set2 (Dict : dict) (key sub_key : string) (value : str)
    : dict_exn + dict :=
  match Dict !! key with
  | None => inl (KeyError key)
  | Some (VStr _) => inl TypeError
  | Some (VDict d) => inr (<[key := VDict (<[sub_key := value]> d)]> Dict)
  end.

(** [Dict[key][sub_key] += text]: the old value is read, then the sum is
    stored. *)
Definition dict_add2 (Dict : dict) (key sub_key : string) (text : str)
    : dict_exn + dict :=
  match dict_get2 Dict key sub_key with
  | inl e => inl e
  | inr old => dict_set2 Dict key sub_key (old ++ text)
  end.

Definition is_KeyError (e : dict_exn) : bool :=
  match e with KeyError _ => true | TypeError => false end.

(** The dictionary left behind and, when the call raises, the
    exception. *)
Definition add_dictkey (Dict : dict) (key sub_key : string) (value : str)
    (append : bool) (sep : str) : dict * option dict_exn :=
  if bool_decide (sub_key <> ""%string) then
    if negb append then
      match dict_set2 Dict key sub_key value with
      | inr D => (D, None)
      | inl e =>
          if is_KeyError e then
            let D := <[key := VDict ∅]> Dict in
            match dict_set2 D key sub_key value with
            | inr D' => (D', None)
            | inl e' => (D, Some e')
            end
          else (Dict, Some e)
      end
    else
      match dict_add2 Dict key sub_key (sep ++ value) with
      | inr D => (D, None)
      | inl e =>
          if is_KeyError e then
            match dict_set2 Dict key sub_key [] with
            | inl e' => (Dict, Some e')
            | inr D =>
                match dict_add2 D key sub_key value with
                | inr D' => (D', None)
                | inl e' => (D, Some e')
                end
            end
          else (Dict, Some e)
      end
  else (<[key := VStr value]> Dict, None).

End common_utils.

Import common_utils.

(** ** The constants of [plnx_vars]

    The module is imported by [plnx_utils] and read through qualified
    names only.  A template that the code instantiates with [.format] is
    a function of the format arguments. *)

Record plnx_vars := {
  MetaDataFile : string -> string;
  SysConfFile : string -> string;
  SdtAutoConf : string -> string;
  SdtSystemConfDtsi : string -> str -> string;
  PetaLinux_Ver_Str : str;
  PetaLinux_Ver : str;
  SOC_VariantConf : str;
  ARCH_Conf : string -> str;
  Xilinx_Arch_Conf : string -> str;
  AutoBootArgsConf : str;
  BootArgsCmdLineConf : str;
  SystemconfBootargs : str -> str;
  EthConfs_Prefix : str;
  EthConfs_Mac : str;
  SystemconfEth : str -> str -> str;
  FlashIpConf : str;
  SystemconfFlash : str -> str;
  FlashConfs_Prefix : str;
  FlashConfs_Name : str;
  FlashConfs_Size : str;
  FlashPartNode : nat -> str -> str -> str -> str;
  FlashendSymbols : str
}.

(** ** libs/plnx_utils.py *)

Module plnx_utils.
Section WithVars.
Context `{PyRe} (vars : plnx_vars).

Definition is_hwflow_sdt (proot : string) : M str :=
  let! hdf_ext := get_config_value_bool (py "HDF_EXT") (MetaDataFile vars proot) in
  if decide (hdf_ext = py "dts") then ret (py "sdt") else ret hdf_ext.

(** Calls of [logger.warning] leave the world unchanged and are left
    out. *)
Definition petalinux_version_check (proot : string) : M bool :=
  CreateFile (MetaDataFile vars proot) >>
  let! proj_version :=
    get_config_value_bool (PetaLinux_Ver_Str vars) (MetaDataFile vars proot) in
  if negb (nonempty proj_version) then
    update_config_value (PetaLinux_Ver_Str vars) (PetaLinux_Ver vars)
      (MetaDataFile vars proot) >>
    ret true
  else if decide (PetaLinux_Ver vars <> proj_version) then
    let! ignore := environ_get "PLNX_IGNORE_VER_CHK" in
    if nonempty ignore then ret true
    else
      let! userchoice :=
        input (py "Please input " ++ [QUOTE] ++ py "y/Y" ++ [QUOTE]
               ++ py " to continue. Otherwise it will exit![n]") in
      if bool_decide (userchoice ∈ [py "y"; py "Y"; py "yes"; py "Yes";
                                    py "YEs"; py "YES"])
      then
        let! petalinux_ver := unbound_name "petalinux_ver" in
        let! metadata_file := unbound_name "metadata_file" in
        update_config_value (PetaLinux_Ver_Str vars) petalinux_ver
          metadata_file >>
        ret true
      else ret false
  else ret true.

Definition get_soc_variant (proot : string) : M str :=
  let! variant :=
    get_config_value (SOC_VariantConf vars) (SysConfFile vars proot)
      (py "choice") (py "=y") in
  ret (lower variant).

Definition get_system_arch (proot : string) : M str :=
  let! arch :=
    get_config_value (ARCH_Conf vars proot) (SysConfFile vars proot)
      (py "choice") (py "=y") in
  ret (lower arch).

Definition get_xilinx_arch (proot : string) : M str :=
  let! xilinx_arch :=
    get_config_value (Xilinx_Arch_Conf vars proot) (SysConfFile vars proot)
      (py "choice") (py "=y") in
  let xilinx_arch := lower xilinx_arch in
  if decide (xilinx_arch = py "versal") then
    let! soc_variant := get_soc_variant proot in
    if decide (soc_variant = py "versalnet") then ret (py "versal-net")
    else ret xilinx_arch
  else ret xilinx_arch.

(** [s.replace(a, b)] for one-character [a] and [b]. *)
Definition replace_char (a b : ascii) (s : str) : str :=
  map (fun c => if bool_decide (c = a) then b else c) s.

(** The macro of partition slot [num]: ['%s%s%s' % (Prefix, num, field)]. *)
Definition flash_macro (num : nat) (field : str) : str :=
  FlashConfs_Prefix vars ++ str_of_nat num ++ field.

(** The body of [for num in range(0, 19)], over the slots still to
    visit; [break] ends the loop. *)
Fixpoint flash_parts (proot : string) (dtsi : string) (nums : list nat)
    (prev_part_offset prev_part_size : str) : M unit :=
  match nums with
  | [] => ret tt
  | num :: rest =>
      let! part_offset := add_offsets prev_part_offset prev_part_size in
      let! part_name :=
        get_config_value_bool (flash_macro num (FlashConfs_Name vars))
          (SysConfFile vars proot) in
      let! part_size :=
        get_config_value_bool (flash_macro num (FlashConfs_Size vars))
          (SysConfFile vars proot) in
      if nonempty part_name then
        add_str_to_file dtsi
          (FlashPartNode vars num part_name part_offset part_size)
          false mode_a >>
        flash_parts proot dtsi rest part_offset part_size
      else ret tt
  end.

(** Lines 233-258: the flash part of [gen_sysconf_dtsi_file]. *)
Definition gen_sysconf_flash (proot : string) (sdt_machine : str) : M unit :=
  let! flash_ipname :=
    get_config_value_bool (FlashIpConf vars) (SysConfFile vars proot) in
  if nonempty flash_ipname then
    add_str_to_file (SdtSystemConfDtsi vars proot sdt_machine)
      (SystemconfFlash vars flash_ipname) false mode_a >>
    flash_parts proot (SdtSystemConfDtsi vars proot sdt_machine)
      (seq 0 19) (py "0x0") (py "0x0") >>
    add_str_to_file (SdtSystemConfDtsi vars proot sdt_machine)
      (FlashendSymbols vars) false mode_a
  else ret tt.

Definition gen_sysconf_dtsi_file (proot : string) : M unit :=
  let! sdt_machine :=
    get_config_value_bool (py "MACHINE ") (SdtAutoConf vars proot) in
  let sdt_machine := strip sdt_machine in
  let! bootargs :=
    get_config_value_bool (AutoBootArgsConf vars) (SysConfFile vars proot) in
  let! bootargs :=
    (if negb (nonempty bootargs)
     then get_config_value_bool (BootArgsCmdLineConf vars)
            (SysConfFile vars proot)
     else ret bootargs) in
  add_str_to_file (SdtSystemConfDtsi vars proot sdt_machine)
    (SystemconfBootargs vars bootargs) false mode_w >>
  let! eth_ipname :=
    get_config_value (EthConfs_Prefix vars) (SysConfFile vars proot)
      (py "choice") (py "_SELECT=y") in
  let eth_ipname := lower eth_ipname in
  let! eth_mac :=
    get_config_value (EthConfs_Prefix vars) (SysConfFile vars proot)
      (py "asterisk") (EthConfs_Mac vars) in
  let eth_mac := replace_char ":" " " eth_mac in
  (if decide (eth_ipname <> py "manual")
   then add_str_to_file (SdtSystemConfDtsi vars proot sdt_machine)
          (SystemconfEth vars eth_ipname eth_mac) false mode_a
   else ret tt) >>
  gen_sysconf_flash proot sdt_machine.

End WithVars.
(** What [sys.exit(status)] leaves of a call. *)
Inductive exit_or (A : Type) :=
| Returned (a : A)
| SysExit (status : Z).
Arguments Returned {A} a.
Arguments SysExit {A} status.

(** The functions below use further constants of [plnx_vars] and ask the
    operating system for the working directory, for canonical paths, for
    the existence of directories, and for the output of a command; these
    are the variables of the section.  [runCmd] gives the standard output
    and error of a command, or nothing when the command fails and
    [runCmd] raises. *)
Section WithSystem.
Context `{PyRe} (vars : plnx_vars).
Context (MetaDataDir : str -> str) (EsdkSrcPath YoctoSrcPath DevtoolConf : str).
Context (getcwd : str) (realpath : str -> str) (path_exists : str -> bool).
Context (runCmd : str -> option (str * str)).

(** The loop [for content in contents.split()]. *)
Fixpoint collect_projects (projects : list str) (contents : list str)
    : list str :=
  match contents with
  | [] => projects
  | content :: rest =>
      let project_name := hd [] (split "/" content) in
      collect_projects
        (if bool_decide (project_name ∈ projects) then projects
         else projects ++ [project_name])
        rest
  end.

(** ['tar --exclude="*/*/*" -tzf "%s"' % (source)] *)
Definition contents_cmd (source : str) : str :=
  py "tar --exclude=" ++ [QUOTE] ++ py "*/*/*" ++ [QUOTE] ++ py " -tzf "
  ++ [QUOTE] ++ source ++ [QUOTE].

Definition get_plnx_projects_from_bsp (source : str) : option (list str) :=
  match runCmd (contents_cmd source) with
  | None => None
  | Some (contents, stderr) =>
      let projects := collect_projects [] (split_ws [] contents) in
      Some (filter (fun p => contains contents (MetaDataDir p)) projects)
  end.

(** [re.search(r"\s", proot)]: some character of [proot] is white
    space. *)
Definition includes_space (proot : str) : bool := existsb is_space proot.

(** The loop [while True] of [exit_not_plnx_project], which ends with a
    [return], a [sys.exit] or a [break]; [fuel] bounds the number of
    rounds, and no answer is given when it runs out. *)
Fixpoint find_project (fuel : nat) (workingdir : str)
    : option (exit_or str) :=
  match fuel with
  | O => None
  | S k =>
      if path_exists (MetaDataDir workingdir) then
        if includes_space workingdir then Some (SysExit 255)
        else Some (Returned workingdir)
      else
        let parentdir := dirname workingdir in
        if decide (parentdir = workingdir) then Some (SysExit 255)
        else find_project k parentdir
  end.

(** Calls of [logger.error] are left out.  The loop is given one round
    per character of the working directory, and one more. *)
Definition exit_not_plnx_project (proot : str) : option (exit_or str) :=
  let workingdir := getcwd in
  if nonempty proot then
    let proot := realpath proot in
    if negb (path_exists (MetaDataDir proot)) then Some (SysExit 255)
    else if includes_space proot then Some (SysExit 255)
    else Some (Returned proot)
  else find_project (S (length workingdir)) workingdir.

Definition get_buildtools_path (Type_ : str) : str :=
  if decide (Type_ = py "extended") then
    os_path_join (os_path_join YoctoSrcPath (py "buildtools_extended"))
      (py "environment-setup-x86_64-petalinux-linux")
  else
    os_path_join (os_path_join YoctoSrcPath (py "buildtools"))
      (py "environment-setup-x86_64-petalinux-linux").

Definition get_yocto_path (proot : string) (arch : str) : M (str * str) :=
  let! hdf_ext := is_hwflow_sdt vars proot in
  let arch := if decide (hdf_ext = py "sdt") then py "aarch64_dt" else arch in
  let yocto_path := os_path_join EsdkSrcPath arch in
  ret (yocto_path, arch).

Definition get_workspace_path (proot : string) : M str :=
  let! workspace_path :=
    get_config_value_bool DevtoolConf (SysConfFile vars proot) in
  let workspace_path := replace workspace_path (py "${PROOT}") (py proot) in
  let workspace_path := replace workspace_path (py "$PROOT") (py proot) in
  ret workspace_path.

(** Lines 195-196 of [config_initscripts]:
    [sum(bin(int(x)).count('1') for x in ip_netmask.split('.'))]; a part
    that is not a number raises [ValueError]. *)
Fixpoint sum_of_ones (parts : list str) : option nat :=
  match parts with
  | [] => Some 0
  | x :: rest =>
      match int10 x with
      | None => None
      | Some n =>
          match sum_of_ones rest with
          | None => None
          | Some total => Some (count_char "1" (bin n) + total)
          end
      end
  end.

Definition cidr_netmask (ip_netmask : str) : res nat :=
  match sum_of_ones (split "." ip_netmask) with
  | Some n => Ok n
  | None => Raise ValueError
  end.

End WithSystem.

End plnx_utils.

Import plnx_utils.

(** ** Instances used to run the embedding on concrete inputs *)

(** An engine for patterns without metacharacters. *)
#[global] Instance literal_re : PyRe := {|
  re_search p s := contains s p;
  re_match p s := startswith s p;
  re_search_literal p s _ := eq_refl
|}.

(** Sample values for the constants, in the naming style of a PetaLinux
    project tree. *)
Definition sample_vars : plnx_vars := {|
  MetaDataFile proot := (proot +:+ "/.petalinux/metadata")%string;
  SysConfFile proot := (proot +:+ "/project-spec/configs/config")%string;
  SdtAutoConf proot := (proot +:+ "/sdt/auto.conf")%string;
  SdtSystemConfDtsi proot machine :=
    (proot +:+ "/sdt/" +:+ string_of_list_ascii machine +:+ "/sysconf.dtsi")%string;
  PetaLinux_Ver_Str := py "PETALINUX_VER";
  PetaLinux_Ver := py "2024.1";
  SOC_VariantConf := py "CONFIG_SUBSYSTEM_VARIANT_";
  ARCH_Conf _ := py "CONFIG_SUBSYSTEM_ARCH_";
  Xilinx_Arch_Conf _ := py "CONFIG_SYSTEM_";
  AutoBootArgsConf := py "CONFIG_SUBSYSTEM_BOOTARGS_GENERATED";
  BootArgsCmdLineConf := py "CONFIG_SUBSYSTEM_USER_CMDLINE";
  SystemconfBootargs b := py "bootargs = " ++ b ++ [LF];
  EthConfs_Prefix := py "CONFIG_SUBSYSTEM_ETHERNET_";
  EthConfs_Mac := py "_MAC=";
  SystemconfEth ip mac := py "&" ++ ip ++ py " mac " ++ mac ++ [LF];
  FlashIpConf := py "CONFIG_SUBSYSTEM_FLASH_IP_NAME";
  SystemconfFlash ip := py "&" ++ ip ++ py " {" ++ [LF];
  FlashConfs_Prefix := py "CONFIG_SUBSYSTEM_FLASH_PART";
  FlashConfs_Name := py "_NAME";
  FlashConfs_Size := py "_SIZE";
  FlashPartNode num name offset size :=
    py "partition@" ++ str_of_nat num ++ py " " ++ name ++ py " "
       ++ offset ++ py " " ++ size ++ [LF];
  FlashendSymbols := py "};" ++ [LF]
|}.

(** A world with the given files, no environment variable and nothing
    typed. *)
Definition world_of (fs : gmap string str) : world := World fs ∅ [].

(** ** Vocabulary of the statements *)

(** A line that ends with its newline, which is its only one. *)
Definition terminated (l : str) : Prop :=
  exists body, l = body ++ [LF] /\ LF ∉ body.

(** What [readlines] returns: terminated lines, except that the last one
    may lack its newline. *)
Inductive lines_shape : list str -> Prop :=
| shape_nil : lines_shape []
| shape_last l : l <> [] -> LF ∉ l -> lines_shape [l]
| shape_cons l ls : terminated l -> lines_shape ls -> lines_shape (l :: ls).

(** The alphabet of KConfig symbols: letters, digits and the underscore. *)
Definition ident_char (c : ascii) : bool :=
  let n := code c in
  ((48 <=? n) && (n <=? 57) || (65 <=? n) && (n <=? 90)
   || (97 <=? n) && (n <=? 122) || (n =? 95))%N.

Definition kconfig_name (macro : str) : Prop :=
  Forall (fun c => ident_char c = true) macro.

(** A value that fits on one line of text. *)
Definition single_line (value : str) : Prop := (LF ∉ value) /\ (CR ∉ value).

(** The lines a reader gets from a path: none when the file is absent. *)
Definition lines_of (w : world) (filename : string) : list str :=
  match files w !! filename with
  | Some c => readlines c
  | None => []
  end.

(** The world after [filename] has received the content [c]. *)
Definition with_file (filename : string) (c : str) (w : world) : world :=
  set_files <[filename := c]> w.

(** The world once [CreateFile] has run on [filename]. *)
Definition ensure_file (filename : string) (w : world) : world :=
  match files w !! filename with
  | Some _ => w
  | None => with_file filename [] w
  end.

(** The answers [petalinux_version_check] takes for a yes. *)
Definition yes_forms : list str :=
  [py "y"; py "Y"; py "yes"; py "Yes"; py "YEs"; py "YES"].

(** A project last touched by release 2023.2, opened with the release of
    [sample_vars], no override in the environment, and a user who types
    [y]. *)
Definition mismatch_world : world :=
  World {[ MetaDataFile sample_vars "proj" := py "PETALINUX_VER=2023.2" ++ [LF] ]}
        ∅ [py "y"].





(** A configuration with three partitions of sizes 0x1000, 0x2000 and
    0x400, and the sizes as numbers. *)
Definition three_parts_cfg : str :=
  py "CONFIG_SUBSYSTEM_FLASH_IP_NAME=qspi" ++ [LF]
  ++ py "CONFIG_SUBSYSTEM_FLASH_PART0_NAME=boot" ++ [LF]
  ++ py "CONFIG_SUBSYSTEM_FLASH_PART0_SIZE=0x1000" ++ [LF]
  ++ py "CONFIG_SUBSYSTEM_FLASH_PART1_NAME=env" ++ [LF]
  ++ py "CONFIG_SUBSYSTEM_FLASH_PART1_SIZE=0x2000" ++ [LF]
  ++ py "CONFIG_SUBSYSTEM_FLASH_PART2_NAME=kernel" ++ [LF]
  ++ py "CONFIG_SUBSYSTEM_FLASH_PART2_SIZE=0x400" ++ [LF].

Definition three_parts_world : world :=
  world_of {[ SysConfFile sample_vars "proj" := three_parts_cfg ]}.


(** The version stored in the project, as the check reads it. *)
Definition stored_version (vars : plnx_vars) (proot : string) (w : world) : str :=
  scan_bool (PetaLinux_Ver_Str vars) (lines_of w (MetaDataFile vars proot)).

(** Inputs of the examples. *)
Definition quoted_bar : str := [QUOTE] ++ py "bar" ++ [QUOTE].

Definition inner_quote : str := py "a" ++ [QUOTE] ++ py "b".

Definition one_line_cfg : world := world_of {[ "cfg" := py "X=1" ++ [LF] ]}.

Definition unterminated_cfg : world := world_of {[ "cfg" := py "X=1" ]}.

(** The lines [update_config_value] copies. *)
Definition kept_lines `{PyRe} (macro : str) (lines : list str) : list str :=
  filter (fun l => negb (line_hit macro l)) lines.

(** The body of the entry written last, without its newline. *)
Definition entry_body (macro value : str) : str :=
  if decide (value = py "disable") then not_set_line macro
  else assign_prefix macro ++ value.


(** Setting a value and reading it back in [bool] mode. *)
Definition set_then_get `{PyRe} (macro value end_macro : str)
    (filename : string) : M str :=
  update_config_value macro value filename >>
  get_config_value macro filename (py "bool") end_macro.

(** What [get_config_value] computes from the lines it has read. *)
Definition scan_lines `{PyRe} (macro Type_ end_macro : str) (lines : list str)
    : res str :=
  if decide (Type_ = py "bool") then Ok (scan_bool macro lines)
  else if decide (Type_ = py "choice")
  then Ok (scan_choice macro end_macro lines)
  else if decide (Type_ = py "choicelist")
  then Ok (scan_choicelist macro end_macro [] lines)
  else if decide (Type_ = py "asterisk")
  then scan_asterisk macro end_macro lines
  else Ok [].


(** The reading of the words "surrounding double quotes stripped" of the
    specification: quote characters are removed from both ends of the
    value and nowhere else. *)
Fixpoint lstrip_quotes (s : str) : str :=
  match s with
  | [] => []
  | c :: s' => if bool_decide (c = QUOTE) then lstrip_quotes s' else s
  end.

Definition strip_surrounding_quotes (v : str) : str :=
  rev (lstrip_quotes (rev (lstrip_quotes v))).


(** The value a matching line yields in [choice] and [choicelist] mode. *)
Definition choice_value (macro end_macro line : str) : str :=
  remove_all (remove_all (strip line) macro) end_macro.

Definition choice_match (macro end_macro line : str) : bool :=
  startswith (strip line) macro && endswith (strip line) end_macro.

(** A non-empty line of text with its newline. *)
Definition text_line (s : str) : Prop :=
  exists body, s = body ++ [LF] /\ body <> [] /\ (LF ∉ body) /\ (CR ∉ body).

(** A value that [get_config_value] reads back as it was written: not
    empty, on one line, not the word [disable], without trailing
    whitespace, double quote or occurrence of [macro=]. *)
Definition clean_value (macro value : str) : Prop :=
  value <> [] /\ single_line value /\ value <> py "disable"
  /\ rstrip value = value /\ contains value (assign_prefix macro) = false
  /\ (QUOTE ∉ value).

(** The text [get_config_value] sees in [choicelist] mode. *)
Definition choicelist_text (macro end_macro : str) (lines : list str) : str :=
  concat (map (fun l => py " " ++ choice_value macro end_macro l)
              (filter (fun l => choice_match macro end_macro l) lines)).





(** The number of ones in the binary writing of a number. *)
Fixpoint ones_pos (p : positive) : nat :=
  match p with
  | xH => 1
  | xO q => ones_pos q
  | xI q => S (ones_pos q)
  end.

Definition ones (n : nat) : nat :=
  match N.of_nat n with
  | N0 => 0
  | Npos p => ones_pos p
  end.

(** A network mask in dotted decimal writing. *)
Definition dotted_quad (a b c d : nat) : str :=
  str_of_nat a ++ py "." ++ str_of_nat b ++ py "." ++ str_of_nat c
  ++ py "." ++ str_of_nat d.

(** * Properties *)

(** ** Strings *)

Section StrLemmas.

Lemma startswith_spec (s p : str) :
  startswith s p = true <-> exists k, s = p ++ k.
Proof.
  revert s. induction p as [|a p IH]; intros s; simpl.
  - split; [intros _; by exists s|done].
  - destruct s as [|b s].
    + split; [done|]. intros [k Hk]. discriminate.
    + rewrite andb_true_iff, bool_decide_eq_true, IH. split.
      * intros [-> [k ->]]. eauto.
      * intros [k Hk]. injection Hk as -> ->. eauto.
Qed.

Lemma startswith_app (p k : str) : startswith (p ++ k) p = true.
Proof. apply startswith_spec. eauto. Qed.

Lemma contains_spec (s p : str) :
  contains s p = true <-> exists a b, s = a ++ p ++ b.
Proof.
  induction s as [|c s IH]; simpl.
  - rewrite orb_false_r, startswith_spec. split.
    + intros [k Hk]. exists [], k. done.
    + intros (a & b & Hab). destruct a; [|discriminate]. eauto.
  - rewrite orb_true_iff, startswith_spec, IH. split.
    + intros [[k Hk]|(a & b & ->)].
      * exists [], k. done.
      * exists (c :: a), b. done.
    + intros (a & b & Hab). destruct a as [|c' a]; simpl in Hab.
      * left. eauto.
      * right. injection Hab as -> ->. eauto.
Qed.

Lemma contains_false (s p : str) :
  contains s p = false <-> ~ exists a b, s = a ++ p ++ b.
Proof. rewrite <- contains_spec. destruct (contains s p); naive_solver. Qed.


Lemma lstrip_infix (s : str) : exists a, s = a ++ lstrip s.
Proof.
  induction s as [|c s [a Ha]]; simpl; [by exists []|].
  destruct (is_space c); [|by exists []].
  exists (c :: a). simpl. by rewrite <- Ha.
Qed.

Lemma rstrip_infix (s : str) : exists b, s = rstrip s ++ b.
Proof.
  unfold rstrip. destruct (lstrip_infix (rev s)) as [a Ha].
  exists (rev a). rewrite <- rev_app_distr, <- Ha. by rewrite rev_involutive.
Qed.

Lemma strip_infix (s : str) : exists a b, s = a ++ strip s ++ b.
Proof.
  unfold strip. destruct (lstrip_infix s) as [a Ha].
  destruct (rstrip_infix (lstrip s)) as [b Hb].
  exists a, b. by rewrite <- Hb.
Qed.

Lemma startswith_strip_contains (s p : str) :
  startswith (strip s) p = true -> contains s p = true.
Proof.
  rewrite startswith_spec, contains_spec. intros [k Hk].
  destruct (strip_infix s) as (a & b & Hs).
  exists a, (k ++ b). rewrite Hs at 1. rewrite Hk. by rewrite <- !app_assoc.
Qed.

Lemma lstrip_app (x y : str) :
  lstrip (x ++ y) = match lstrip x with [] => lstrip y | _ => lstrip x ++ y end.
Proof.
  induction x as [|c x IH]; simpl; [done|].
  destruct (is_space c); [done|]. done.
Qed.

Lemma rstrip_snoc_space (s : str) (c : ascii) :
  is_space c = true -> rstrip (s ++ [c]) = rstrip s.
Proof. intros Hc. unfold rstrip. rewrite rev_app_distr. simpl. by rewrite Hc. Qed.

Lemma rstrip_app_keep (a b : str) (c : ascii) :
  is_space c = false -> rstrip ((a ++ [c]) ++ b) = (a ++ [c]) ++ rstrip b.
Proof.
  intros Hc. unfold rstrip. rewrite rev_app_distr, lstrip_app.
  rewrite (rev_app_distr a [c]). simpl.
  destruct (lstrip (rev b)) as [|d l] eqn:Hb.
  - rewrite Hc. simpl. by rewrite rev_involutive, app_nil_r.
  - rewrite rev_app_distr. simpl. by rewrite rev_involutive, <- app_assoc.
Qed.

Lemma remove_from_skip (old a rest : str) :
  remove_from old (length a) (a ++ rest) = remove_from old 0 rest.
Proof. induction a as [|c a IH]; simpl; [reflexivity|exact IH]. Qed.

End StrLemmas.

(** ** Lines *)

Section LineLemmas.

Lemma remove_all_prefix (p rest : str) :
  p <> [] -> remove_all (p ++ rest) p = remove_all rest p.
Proof.
  destruct p as [|c p]; [done|]. intros _. unfold remove_all.
  change ((c :: p) ++ rest) with (c :: (p ++ rest)).
  cbn [remove_from]. change (c :: p ++ rest) with ((c :: p) ++ rest).
  rewrite startswith_app. cbn [length]. rewrite Nat.sub_1_r. cbn [Nat.pred].
  apply remove_from_skip.
Qed.

Lemma universal_newlines_id (s : str) :
  CR ∉ s -> universal_newlines s = s.
Proof.
  induction s as [|c s IH]; [done|]. intros Hs. simpl.
  rewrite bool_decide_eq_false_2 by set_solver.
  rewrite IH; [done|set_solver].
Qed.

Lemma universal_newlines_no_cr (s : str) : CR ∉ universal_newlines s.
Proof.
  induction s as [|c s IH]; simpl; [set_solver|].
  case_bool_decide as Hc.
  - destruct s as [|d s]; [by apply not_elem_of_cons; split; [|set_solver]|].
    case_bool_decide as Hd.
    + subst d. exact IH.
    + apply not_elem_of_cons. split; [done|]. done.
  - apply not_elem_of_cons. split; [congruence|done].
Qed.

Lemma split_lines_concat (s cur : str) :
  concat (split_lines cur s) = cur ++ s.
Proof.
  revert cur. induction s as [|c s IH]; intros cur; simpl.
  - destruct cur; simpl; by rewrite ?app_nil_r.
  - case_bool_decide as Hc; simpl; rewrite IH.
    + subst c. by rewrite <- app_assoc.
    + by rewrite <- app_assoc.
Qed.

Lemma split_lines_chars (s cur l : str) (c : ascii) :
  l ∈ split_lines cur s -> c ∈ l -> c ∈ cur ++ s.
Proof.
  intros Hl Hc. rewrite <- split_lines_concat.
  apply list_elem_of_In, in_concat. exists l.
  by rewrite <- !list_elem_of_In.
Qed.

Lemma readlines_no_cr (s l : str) : l ∈ readlines s -> CR ∉ l.
Proof.
  intros Hl Hc. apply (universal_newlines_no_cr s).
  by apply (split_lines_chars _ [] l).
Qed.

Lemma split_lines_line (body rest cur : str) :
  LF ∉ body ->
  split_lines cur (body ++ LF :: rest)
  = (cur ++ body ++ [LF]) :: split_lines [] rest.
Proof.
  revert cur. induction body as [|c body IH]; intros cur Hb; simpl.
  - done.
  - rewrite bool_decide_eq_false_2 by set_solver.
    rewrite IH by set_solver. by rewrite <- app_assoc.
Qed.

Lemma split_lines_unterminated (l cur : str) :
  LF ∉ l ->
  split_lines cur l = match cur ++ l with [] => [] | _ :: _ => [cur ++ l] end.
Proof.
  revert cur. induction l as [|c l IH]; intros cur Hl; simpl.
  - rewrite app_nil_r. done.
  - rewrite bool_decide_eq_false_2 by set_solver.
    rewrite IH by set_solver. by rewrite <- app_assoc.
Qed.

Lemma split_lines_shape (s cur : str) :
  LF ∉ cur -> lines_shape (split_lines cur s).
Proof.
  revert cur. induction s as [|c s IH]; intros cur Hcur; simpl.
  - destruct cur; [constructor|]. by constructor.
  - case_bool_decide as Hc.
    + apply shape_cons; [by exists cur|]. apply IH. set_solver.
    + apply IH. set_solver.
Qed.

Lemma readlines_shape (s : str) : lines_shape (readlines s).
Proof. apply split_lines_shape. set_solver. Qed.

Lemma lines_shape_filter (P : str -> bool) (ls : list str) :
  lines_shape ls -> lines_shape (filter P ls).
Proof.
  induction 1 as [|l Hne Hl|l ls Hl Hls IH].
  - constructor.
  - rewrite filter_cons, filter_nil. destruct (decide (P l)); by constructor.
  - rewrite filter_cons. destruct (decide (P l)); [by constructor|done].
Qed.

Lemma split_lines_terminated (ls : list str) (s : str) :
  Forall terminated ls ->
  split_lines [] (concat ls ++ s) = ls ++ split_lines [] s.
Proof.
  induction 1 as [|l ls (body & -> & Hb) _ IH]; simpl; [done|].
  rewrite <- !app_assoc. simpl. rewrite split_lines_line by done.
  simpl. by rewrite IH.
Qed.

Lemma split_lines_of_shape (ls : list str) :
  lines_shape ls -> split_lines [] (concat ls) = ls.
Proof.
  induction 1 as [|l Hne Hl|l ls (body & -> & Hb) Hls IH]; simpl.
  - done.
  - rewrite app_nil_r, split_lines_unterminated by done. simpl.
    by destruct l.
  - rewrite <- !app_assoc. simpl. rewrite split_lines_line by done.
    simpl. by rewrite IH.
Qed.

(** Appending one terminated line to a text: the lines before the last
    are untouched, and the appended line continues the last one when
    that one lacks its newline. *)
Lemma split_lines_snoc_line (t s cur : str) :
  LF ∉ t -> LF ∉ cur ->
  exists pre y,
    split_lines cur s = pre ++ (match y with [] => [] | _ :: _ => [y] end)
    /\ (LF ∉ y) /\ Forall terminated pre
    /\ split_lines cur (s ++ t ++ [LF]) = pre ++ [y ++ t ++ [LF]].
Proof.
  intros Ht. revert cur. induction s as [|c s IH]; intros cur Hcur.
  - exists [], cur. simpl. split_and!; [done|done|constructor|].
    change (t ++ [LF]) with (t ++ LF :: []).
    by rewrite split_lines_line.
  - simpl. case_bool_decide as Hc.
    + destruct (IH []) as (pre & y & E1 & Hy & Hpre & E2); [set_solver|].
      exists ((cur ++ [LF]) :: pre), y. rewrite E1, E2.
      split_and!; [done|done| |done].
      constructor; [by exists cur|done].
    + destruct (IH (cur ++ [c])) as (pre & y & E1 & Hy & Hpre & E2);
        [set_solver|].
      exists pre, y. by rewrite E1, E2.
Qed.

End LineLemmas.

(** ** Running the monad *)



Section RunLemmas.
Context `{PyRe}.

Lemma with_file_twice (f : string) (a b : str) (w : world) :
  with_file f a (with_file f b w) = with_file f a w.
Proof.
  unfold with_file, set_files. simpl. f_equal. apply insert_insert_eq.
Qed.

Lemma files_with_file (f : string) (c : str) (w : world) :
  files (with_file f c w) !! f = Some c.
Proof. apply lookup_insert_eq. Qed.

Lemma files_with_file_ne (f g : string) (c : str) (w : world) :
  f <> g -> files (with_file f c w) !! g = files w !! g.
Proof. intros. by apply lookup_insert_ne. Qed.

Lemma lines_of_with_file (f : string) (c : str) (w : world) :
  lines_of (with_file f c w) f = readlines c.
Proof. unfold lines_of. by rewrite files_with_file. Qed.


Lemma lines_if_exists_run (f : string) (w : world) :
  lines_if_exists f w = (w, Ok (lines_of w f)).
Proof.
  unfold lines_if_exists, bind, os_path_exists, open_readlines, lines_of, ret.
  destruct (files w !! f) as [c|] eqn:E.
  - rewrite bool_decide_eq_true_2 by eauto. by rewrite ?E.
  - rewrite bool_decide_eq_false_2; [by rewrite ?E|]. by intros [? ?].
Qed.

Lemma file_write_run (f : string) (buf s : str) (w : world) :
  files w !! f = Some buf ->
  file_write f s w = (with_file f (buf ++ s) w, Ok tt).
Proof. intros E. unfold file_write. cbv beta. by rewrite E. Qed.

Lemma write_kept_run (macro : str) (f : string) (lines : list str) :
  forall (w : world) (buf : str),
    files w !! f = Some buf ->
    write_kept macro f lines w
    = (with_file f (buf ++ concat (kept_lines macro lines)) w, Ok tt).
Proof.
  unfold kept_lines.
  induction lines as [|l lines IH]; intros w buf E; cbn [write_kept].
  - unfold ret. rewrite filter_nil. simpl. rewrite app_nil_r.
    unfold with_file, set_files.
    rewrite insert_id by done. by destruct w.
  - rewrite filter_cons. unfold bind at 1.
    destruct (line_hit macro l) eqn:Hl; cbn [negb].
    + unfold ret at 1. rewrite decide_False by (by intros []). by apply IH.
    + rewrite (file_write_run _ buf) by done.
      rewrite (IH _ (buf ++ l)) by apply files_with_file.
      rewrite decide_True by done. simpl.
      by rewrite with_file_twice, <- app_assoc.
Qed.

(** [update_config_value] writes the kept lines in order, then the new
    entry. *)
Lemma update_config_value_run (macro value : str) (f : string) (w : world) :
  update_config_value macro value f w
  = (with_file f (concat (kept_lines macro (lines_of w f))
                  ++ new_entry macro value) w, Ok tt).
Proof.
  unfold update_config_value, bind. rewrite lines_if_exists_run.
  unfold open_w at 1. fold (with_file f [] w).
  rewrite (write_kept_run _ _ _ _ []) by apply files_with_file.
  rewrite with_file_twice. simpl.
  rewrite (file_write_run _ (concat (kept_lines macro (lines_of w f))))
    by apply files_with_file.
  by rewrite with_file_twice.
Qed.

Lemma get_config_value_run (macro Type_ end_macro : str) (f : string)
    (w : world) :
  get_config_value macro f Type_ end_macro w
  = (w, scan_lines macro Type_ end_macro (lines_of w f)).
Proof.
  unfold get_config_value, bind, scan_lines. rewrite lines_if_exists_run.
  repeat case_decide; reflexivity.
Qed.

Lemma get_config_value_bool_run (macro : str) (f : string) (w : world) :
  get_config_value_bool macro f w = (w, Ok (scan_bool macro (lines_of w f))).
Proof.
  unfold get_config_value_bool. rewrite get_config_value_run.
  unfold scan_lines. by rewrite decide_True.
Qed.

End RunLemmas.

(** ** KConfig symbols as patterns *)

Section MacroLemmas.
Context `{PyRe}.

Lemma ident_char_facts (c : ascii) :
  ident_char c = true ->
  metachar c = false /\ is_space c = false /\ c <> LF /\ c <> CR
  /\ c <> EQUALS /\ c <> QUOTE.
Proof.
  destruct c as [[] [] [] [] [] [] [] []]; intros Hc;
    try (vm_compute in Hc; discriminate Hc); clear Hc;
    (split_and!; [vm_compute; reflexivity ..|discriminate|discriminate
                 |discriminate|discriminate]).
Qed.

Lemma kconfig_name_literal (macro : str) :
  kconfig_name macro -> literal_pattern macro.
Proof.
  intros Hm. eapply Forall_impl; [exact Hm|].
  intros c Hc. by apply ident_char_facts.
Qed.

Lemma not_set_line_literal (macro : str) :
  kconfig_name macro -> literal_pattern (not_set_line macro).
Proof.
  intros Hm. unfold not_set_line, literal_pattern.
  rewrite !Forall_app. split_and!.
  - by repeat constructor.
  - by apply kconfig_name_literal.
  - by repeat constructor.
Qed.

Lemma assign_prefix_literal (macro : str) :
  kconfig_name macro -> literal_pattern (assign_prefix macro).
Proof.
  intros Hm. unfold assign_prefix, literal_pattern.
  rewrite !Forall_app. split; [by apply kconfig_name_literal|].
  by repeat constructor.
Qed.

(** On a KConfig symbol the two searches are substring searches. *)
Lemma line_hit_literal (macro line : str) :
  kconfig_name macro ->
  line_hit macro line
  = contains line (not_set_line macro) || contains line (assign_prefix macro).
Proof.
  intros Hm. unfold line_hit.
  by rewrite !re_search_literal
    by (by apply not_set_line_literal || by apply assign_prefix_literal).
Qed.

Lemma kconfig_name_not_elem (macro : str) (c : ascii) :
  kconfig_name macro -> ident_char c = false -> c ∉ macro.
Proof.
  intros Hm Hc Hin. unfold kconfig_name in Hm.
  rewrite Forall_forall in Hm. apply Hm in Hin. congruence.
Qed.

Lemma not_set_line_chars (macro : str) (c : ascii) :
  kconfig_name macro -> ident_char c = false ->
  c ∉ py "# is not set" -> c ∉ not_set_line macro.
Proof.
  intros Hm Hc Hn. unfold not_set_line. rewrite !elem_of_app.
  intros [Hin|[Hin|Hin]].
  - apply Hn. revert Hin. vm_compute py. set_solver.
  - by apply (kconfig_name_not_elem macro c).
  - apply Hn. revert Hin. vm_compute py. set_solver.
Qed.

End MacroLemmas.

(** ** The configuration store *)

Section ConfigStore.
Context `{PyRe}.

Lemma new_entry_body (macro value : str) :
  new_entry macro value = entry_body macro value ++ [LF].
Proof.
  unfold new_entry, entry_body. case_decide; [done|].
  by rewrite <- app_assoc.
Qed.

Lemma entry_body_no_lf (macro value : str) :
  kconfig_name macro -> single_line value -> LF ∉ entry_body macro value.
Proof.
  intros Hm [Hv _]. unfold entry_body. case_decide.
  - apply not_set_line_chars; [done|done|]. vm_compute py. set_solver.
  - unfold assign_prefix. rewrite !elem_of_app.
    intros [[Hin|Hin]|Hin]; [|by vm_compute in Hin; set_solver|done].
    by apply (kconfig_name_not_elem macro LF).
Qed.

Lemma entry_body_no_cr (macro value : str) :
  kconfig_name macro -> single_line value -> CR ∉ entry_body macro value.
Proof.
  intros Hm [_ Hv]. unfold entry_body. case_decide.
  - apply not_set_line_chars; [done|done|]. vm_compute py. set_solver.
  - unfold assign_prefix. rewrite !elem_of_app.
    intros [[Hin|Hin]|Hin]; [|by vm_compute in Hin; set_solver|done].
    by apply (kconfig_name_not_elem macro CR).
Qed.


Lemma kept_lines_elem (macro l : str) (ls : list str) :
  l ∈ kept_lines macro ls <-> line_hit macro l = false /\ l ∈ ls.
Proof.
  unfold kept_lines. rewrite list_elem_of_filter.
  by destruct (line_hit macro l); naive_solver.
Qed.

Lemma kept_lines_no_assign (macro l : str) (ls : list str) :
  kconfig_name macro -> l ∈ kept_lines macro ls ->
  contains l (assign_prefix macro) = false.
Proof.
  intros Hm [Hl _]%kept_lines_elem. rewrite line_hit_literal in Hl by done.
  by apply orb_false_iff in Hl as [_ ?].
Qed.


Lemma lines_of_no_cr (w : world) (f : string) (l : str) :
  l ∈ lines_of w f -> CR ∉ l.
Proof.
  unfold lines_of. destruct (files w !! f); [apply readlines_no_cr|].
  by intros ?%elem_of_nil.
Qed.

Lemma lines_of_shape (w : world) (f : string) : lines_shape (lines_of w f).
Proof.
  unfold lines_of. destruct (files w !! f); [apply readlines_shape|].
  constructor.
Qed.

Lemma concat_no_cr (ls : list str) :
  (forall l, l ∈ ls -> CR ∉ l) -> CR ∉ concat ls.
Proof.
  intros Hls Hin. apply list_elem_of_In, in_concat in Hin as (l & Hl & Hc).
  apply (Hls l); by apply list_elem_of_In.
Qed.

(** Text written by [update_config_value] is read back as it is. *)
Lemma updated_text_no_cr (macro value : str) (w : world) (f : string) :
  kconfig_name macro -> single_line value ->
  universal_newlines
    (concat (kept_lines macro (lines_of w f)) ++ new_entry macro value)
  = concat (kept_lines macro (lines_of w f)) ++ new_entry macro value.
Proof.
  intros Hm Hv. apply universal_newlines_id.
  rewrite new_entry_body, !elem_of_app. intros [Hin|[Hin|Hin]].
  - revert Hin. apply concat_no_cr.
    intros l [_ Hl]%kept_lines_elem. by apply (lines_of_no_cr w f).
  - by apply (entry_body_no_cr macro value).
  - revert Hin. vm_compute. set_solver.
Qed.

Lemma Forall_kept_lines (P : str -> Prop) (macro : str) (ls : list str) :
  Forall P ls -> Forall P (kept_lines macro ls).
Proof.
  rewrite !Forall_forall. intros HP l [_ Hl]%kept_lines_elem. by apply HP.
Qed.

(** When every line of the file had its newline, the file is read
    back as the kept lines followed by the new entry. *)
Lemma updated_lines_terminated (macro value : str) (w : world) (f : string) :
  kconfig_name macro -> single_line value ->
  Forall terminated (lines_of w f) ->
  readlines (concat (kept_lines macro (lines_of w f)) ++ new_entry macro value)
  = kept_lines macro (lines_of w f) ++ [new_entry macro value].
Proof.
  intros Hm Hv Ht. unfold readlines. rewrite updated_text_no_cr by done.
  rewrite split_lines_terminated by by apply Forall_kept_lines.
  f_equal. rewrite new_entry_body.
  change (entry_body macro value ++ [LF])
    with (entry_body macro value ++ LF :: []).
  rewrite split_lines_line by by apply entry_body_no_lf. done.
Qed.


(** After one update every line of the file has its newline, and the
    lines are the kept ones, the last of which is continued by the new
    entry when it lacked its newline. *)
Lemma updated_lines_cases (macro value : str) (w : world) (f : string) :
  kconfig_name macro -> single_line value ->
  exists pre y,
    kept_lines macro (lines_of w f)
    = pre ++ (match y with [] => [] | _ :: _ => [y] end)
    /\ (LF ∉ y) /\ Forall terminated pre
    /\ readlines (concat (kept_lines macro (lines_of w f))
                  ++ new_entry macro value)
       = pre ++ [y ++ new_entry macro value].
Proof.
  intros Hm Hv. unfold readlines. rewrite updated_text_no_cr by done.
  rewrite new_entry_body.
  destruct (split_lines_snoc_line (entry_body macro value)
              (concat (kept_lines macro (lines_of w f))) [])
    as (pre & y & E1 & Hy & Hpre & E2);
    [by apply entry_body_no_lf|set_solver|].
  rewrite split_lines_of_shape in E1
    by apply lines_shape_filter, lines_of_shape.
  exists pre, y. by rewrite E2.
Qed.

Lemma updated_lines_all_terminated (macro value : str) (w : world) (f : string) :
  kconfig_name macro -> single_line value ->
  Forall terminated
    (readlines (concat (kept_lines macro (lines_of w f))
                ++ new_entry macro value)).
Proof.
  intros Hm Hv.
  destruct (updated_lines_cases macro value w f)
    as (pre & y & _ & Hy & Hpre & ->); [done..|].
  apply Forall_app. split; [done|]. constructor; [|constructor].
  rewrite new_entry_body. exists (y ++ entry_body macro value).
  rewrite <- app_assoc. split; [done|].
  rewrite elem_of_app. intros [?|?]; [done|].
  by apply (entry_body_no_lf macro value).
Qed.

Lemma scan_bool_skip (macro : str) (pre rest : list str) :
  Forall (fun l => contains l (assign_prefix macro) = false) pre ->
  scan_bool macro (pre ++ rest) = scan_bool macro rest.
Proof.
  induction 1 as [|l pre Hl _ IH]; [done|]. simpl.
  destruct (startswith (strip l) (assign_prefix macro)) eqn:E; [|done].
  apply startswith_strip_contains in E. congruence.
Qed.

Lemma lstrip_keep (c : ascii) (s : str) :
  is_space c = false -> lstrip (c :: s) = c :: s.
Proof. intros Hc. simpl. by rewrite Hc. Qed.

(** The assignment line as [get_config_value] sees it after [strip]. *)
Lemma strip_assignment (macro value : str) :
  kconfig_name macro ->
  strip (assign_prefix macro ++ value ++ [LF])
  = assign_prefix macro ++ rstrip value.
Proof.
  intros Hm. unfold strip, assign_prefix.
  assert (lstrip ((macro ++ py "=") ++ value ++ [LF])
          = (macro ++ py "=") ++ value ++ [LF]) as ->.
  { destruct macro as [|c macro]; [done|].
    apply lstrip_keep. inversion Hm; subst. by apply ident_char_facts. }
  change (py "=") with [EQUALS].
  rewrite rstrip_app_keep by done. f_equal.
  by apply rstrip_snoc_space.
Qed.

End ConfigStore.


(** ** Claims on [update_config_value] and [get_config_value] *)

Section ConfigStoreClaims.
Context `{PyRe}.


End ConfigStoreClaims.

Lemma kconfig_name_FOO : kconfig_name (py "FOO").
Proof. by repeat constructor. Qed.

(** The old assignment of [FOO] goes, the other line stays, the new
    assignment is the last line. *)
Example update_config_value_replaces :
  files (update_config_value (py "FOO") (py "bar") "cfg"
           (world_of {[ "cfg" := py "FOO=old" ++ [LF] ++ py "X=1" ++ [LF] ]})).1
    !! "cfg"
  = Some (py "X=1" ++ [LF] ++ py "FOO=bar" ++ [LF]).
Proof. reflexivity. Qed.

(** A last line without its newline is continued by the new entry. *)
Example update_config_value_unterminated :
  files (update_config_value (py "FOO") (py "bar") "cfg" unterminated_cfg).1
    !! "cfg"
  = Some (py "X=1FOO=bar" ++ [LF]).
Proof. reflexivity. Qed.

Section RoundTrip.
Context `{PyRe}.

(** C2, amended.  For a KConfig symbol, a one-line value other than
    [disable] and a file whose lines all end with a newline (an absent
    or empty file included), setting the value and reading it back in
    [bool] mode returns the value with its trailing whitespace removed,
    then every occurrence of [macro=] deleted, then every double quote
    deleted, wherever it stands. *)
Theorem set_then_get_value (macro value end_macro : str) (f : string)
    (w : world) :
  kconfig_name macro -> single_line value -> value <> py "disable" ->
  Forall terminated (lines_of w f) ->
  (set_then_get macro value end_macro f w).2
  = Ok (remove_all (remove_all (rstrip value) (assign_prefix macro)) [QUOTE]).
Proof.
  intros Hm Hv Hd Ht. unfold set_then_get, bind.
  rewrite update_config_value_run, get_config_value_run. simpl.
  rewrite lines_of_with_file, updated_lines_terminated by done.
  unfold scan_lines. rewrite decide_True by done. f_equal.
  rewrite scan_bool_skip.
  - unfold new_entry. rewrite decide_False by done. simpl.
    rewrite strip_assignment by done.
    rewrite startswith_app, remove_all_prefix; [done|].
    unfold assign_prefix. by destruct macro.
  - apply Forall_forall. intros l Hl. by apply kept_lines_no_assign in Hl.
Qed.



End RoundTrip.

Lemma not_elem_by_compute (c : ascii) (s : str) :
  bool_decide (c ∈ s) = false -> c ∉ s.
Proof. by intros ?%bool_decide_eq_false. Qed.

Lemma single_line_by_compute (v : str) :
  bool_decide (LF ∈ v) || bool_decide (CR ∈ v) = false -> single_line v.
Proof.
  intros [? ?]%orb_false_iff. split; by apply not_elem_by_compute.
Qed.

Lemma terminated_by_compute (body : str) :
  bool_decide (LF ∈ body) = false -> terminated (body ++ [LF]).
Proof. intros Hb. exists body. split; [done|by apply not_elem_by_compute]. Qed.

(** A quoted value written to a well-formed file comes back without its
    quotes. *)
Lemma set_then_get_value_witness :
  kconfig_name (py "FOO") /\ single_line quoted_bar
  /\ quoted_bar <> py "disable"
  /\ Forall terminated (lines_of one_line_cfg "cfg")
  /\ (set_then_get (py "FOO") quoted_bar (py "=y") "cfg" one_line_cfg).2
     = Ok (py "bar").
Proof.
  assert (single_line quoted_bar) as Hv
    by (apply single_line_by_compute; reflexivity).
  assert (quoted_bar <> py "disable") as Hd by discriminate.
  assert (Forall terminated (lines_of one_line_cfg "cfg")) as Ht.
  { change (lines_of one_line_cfg "cfg") with [py "X=1" ++ [LF]].
    constructor; [|constructor].
    apply terminated_by_compute. reflexivity. }
  split_and!; [exact kconfig_name_FOO|done..|].
  rewrite (set_then_get_value (py "FOO") quoted_bar (py "=y") "cfg"
             one_line_cfg kconfig_name_FOO Hv Hd Ht).
  reflexivity.
Defined.

(** C2 as stated fails: a value with a double quote in its middle has no
    surrounding quotes to strip, yet it is read back without that quote. *)
Lemma set_then_get_counterexample :
  inner_quote <> py "disable"
  /\ strip_surrounding_quotes inner_quote = inner_quote
  /\ (set_then_get (py "FOO") inner_quote (py "=y") "cfg" (world_of ∅)).2
     = Ok (py "ab")
  /\ (set_then_get (py "FOO") inner_quote (py "=y") "cfg" (world_of ∅)).2
     <> Ok (strip_surrounding_quotes inner_quote).
Proof.
  split_and!; [discriminate|reflexivity|reflexivity|].
  vm_compute. discriminate.
Qed.

(** What else the reading does to the value: trailing whitespace goes,
    and so does an occurrence of [macro=] inside the value. *)
Example set_then_get_trailing_space :
  (set_then_get (py "FOO") (py "bar ") (py "=y") "cfg" (world_of ∅)).2
  = Ok (py "bar").
Proof. reflexivity. Qed.

Example set_then_get_macro_inside :
  (set_then_get (py "FOO") (py "aFOO=b") (py "=y") "cfg" (world_of ∅)).2
  = Ok (py "ab").
Proof. reflexivity. Qed.

(** After a last line without its newline the new entry is not at the
    start of a line, and the value is not found. *)
Example set_then_get_unterminated :
  (set_then_get (py "FOO") (py "bar") (py "=y") "cfg" unterminated_cfg).2
  = Ok [].
Proof. reflexivity. Qed.



(** ** Claims on lookups that find nothing *)

Section Unset.
Context `{PyRe}.



(** C10.  With a [Type] that is none of [bool], [choice], [choicelist]
    and [asterisk], [get_config_value] returns the empty string and
    raises nothing, whatever the file holds. *)
Theorem get_config_value_unknown_type (macro Type_ end_macro : str)
    (f : string) (w : world) :
  Type_ ∉ [py "bool"; py "choice"; py "choicelist"; py "asterisk"] ->
  get_config_value macro f Type_ end_macro w = (w, Ok []).
Proof.
  intros HT. rewrite get_config_value_run. unfold scan_lines.
  rewrite !decide_False; [done|set_solver..].
Qed.

End Unset.


(** An absent file is not created by a lookup. *)
Example get_config_value_absent :
  get_config_value (py "FOO") "cfg" (py "asterisk") (py "_MAC=") (world_of ∅)
  = (world_of ∅, Ok []).
Proof. reflexivity. Qed.

(** In [asterisk] mode a matching line without [=] raises [IndexError]:
    the absence of a match is what keeps the lookup silent. *)
Example get_config_value_asterisk_raises :
  (get_config_value (py "FOO") "cfg" (py "asterisk") (py "BAR")
     (world_of {[ "cfg" := py "FOO_BAR" ++ [LF] ]})).2
  = Raise IndexError.
Proof. reflexivity. Qed.

(** A file that assigns [FOO], read with the unknown mode [string]. *)
Lemma get_config_value_unknown_type_witness :
  ((py "string") ∉ [py "bool"; py "choice"; py "choicelist"; py "asterisk"])
  /\ get_config_value (py "FOO") "cfg" (py "string") (py "=y")
       (world_of {[ "cfg" := py "FOO=1" ++ [LF] ]})
     = (world_of {[ "cfg" := py "FOO=1" ++ [LF] ]}, Ok [])
  /\ get_config_value (py "FOO") "cfg" (py "bool") (py "=y")
       (world_of {[ "cfg" := py "FOO=1" ++ [LF] ]})
     = (world_of {[ "cfg" := py "FOO=1" ++ [LF] ]}, Ok (py "1")).
Proof.
  assert ((py "string")
          ∉ [py "bool"; py "choice"; py "choicelist"; py "asterisk"]) as HT.
  { apply not_elem_of_cons. split; [discriminate|].
    apply not_elem_of_cons. split; [discriminate|].
    apply not_elem_of_cons. split; [discriminate|].
    apply not_elem_of_cons. split; [discriminate|apply not_elem_of_nil]. }
  split_and!; [done| |reflexivity].
  exact (get_config_value_unknown_type (py "FOO") (py "string") (py "=y") "cfg"
           (world_of {[ "cfg" := py "FOO=1" ++ [LF] ]}) HT).
Defined.

(** ** Claims on the hardware flow and the architecture *)

Section HardwareFlow.
Context `{PyRe} (vars : plnx_vars).

(** C1, amended.  [is_hwflow_sdt] returns [sdt] when the value read for
    [HDF_EXT] is [dts] and returns the value read, unchanged, in every
    other case: the empty string when the macro or the file is absent,
    [xsa] only when [xsa] is stored.  So it returns [sdt] exactly when
    the stored value is [dts] or [sdt]. *)
Theorem is_hwflow_sdt_value (proot : string) (w : world) :
  let stored :=
    scan_bool (py "HDF_EXT") (lines_of w (MetaDataFile vars proot)) in
  get_config_value (py "HDF_EXT") (MetaDataFile vars proot)
    (py "bool") (py "=y") w = (w, Ok stored)
  /\ is_hwflow_sdt vars proot w
     = (w, Ok (if decide (stored = py "dts") then py "sdt" else stored))
  /\ ((is_hwflow_sdt vars proot w).2 = Ok (py "sdt")
      <-> stored = py "dts" \/ stored = py "sdt")
  /\ ((is_hwflow_sdt vars proot w).2 = Ok (py "xsa") <-> stored = py "xsa")
  /\ ((is_hwflow_sdt vars proot w).2 = Ok [] <-> stored = []).
Proof.
  intros stored.
  assert (is_hwflow_sdt vars proot w
          = (w, Ok (if decide (stored = py "dts") then py "sdt" else stored)))
    as Hrun.
  { unfold is_hwflow_sdt, bind. rewrite get_config_value_bool_run.
    fold stored. by case_decide. }
  split_and!.
  - apply get_config_value_bool_run.
  - done.
  - rewrite Hrun. cbn [snd].
    destruct (decide (stored = py "dts")) as [Hs|Hs].
    + split; [by left|reflexivity].
    + split; [intros [= E]; by right|]. intros [?|E]; [done|by rewrite E].
  - rewrite Hrun. cbn [snd].
    destruct (decide (stored = py "dts")) as [Hs|Hs].
    + rewrite Hs. split; discriminate.
    + split; [by intros [= E]|by intros E; rewrite E].
  - rewrite Hrun. cbn [snd].
    destruct (decide (stored = py "dts")) as [Hs|Hs].
    + rewrite Hs. split; discriminate.
    + split; [by intros [= E]|by intros E; rewrite E].
Qed.

(** C8, amended.  With [base] the lower-cased value of the architecture
    choice macro and [variant] the lower-cased value of the SoC-variant
    choice macro, [get_xilinx_arch] returns [versal-net] when [base] is
    [versal] and [variant] is [versalnet], [versal] when [base] is
    [versal] and [variant] is anything else, and [base] itself
    otherwise.  So it returns [versal-net] exactly when [base] is
    [versal] with [variant] [versalnet], or [base] is [versal-net]
    already. *)
Theorem get_xilinx_arch_value (proot : string) (w : world) :
  let lines := lines_of w (SysConfFile vars proot) in
  let base := lower (scan_choice (Xilinx_Arch_Conf vars proot) (py "=y") lines) in
  let variant := lower (scan_choice (SOC_VariantConf vars) (py "=y") lines) in
  get_soc_variant vars proot w = (w, Ok variant)
  /\ get_xilinx_arch vars proot w
     = (w, Ok (if decide (base = py "versal")
               then if decide (variant = py "versalnet")
                    then py "versal-net" else py "versal"
               else base))
  /\ ((get_xilinx_arch vars proot w).2 = Ok (py "versal-net")
      <-> (base = py "versal" /\ variant = py "versalnet")
          \/ base = py "versal-net")
  /\ (base = py "versal" -> variant <> py "versalnet" ->
      (get_xilinx_arch vars proot w).2 = Ok (py "versal")).
Proof.
  intros lines base variant.
  assert (get_soc_variant vars proot w = (w, Ok variant)) as Hsoc.
  { unfold get_soc_variant, bind. rewrite get_config_value_run.
    unfold scan_lines. rewrite decide_False by discriminate.
    by rewrite decide_True. }
  assert (get_xilinx_arch vars proot w
          = (w, Ok (if decide (base = py "versal")
                    then if decide (variant = py "versalnet")
                         then py "versal-net" else py "versal"
                    else base))) as Hrun.
  { unfold get_xilinx_arch, bind at 1. rewrite get_config_value_run.
    unfold scan_lines. rewrite decide_False by discriminate.
    rewrite decide_True by done. fold lines. fold base.
    case_decide as Hb; [|done]. unfold bind. rewrite Hsoc.
    case_decide; [done|]. by rewrite Hb. }
  split_and!; [done|done| |].
  - rewrite Hrun. cbn [snd].
    destruct (decide (base = py "versal")) as [Hb|Hb];
      [destruct (decide (variant = py "versalnet")) as [Hv|Hv]|].
    + split; [by left|reflexivity].
    + split; [discriminate|]. intros [[_ ?]|E]; [done|].
      rewrite E in Hb. discriminate.
    + split; [intros [= E]; by right|].
      intros [[? _]|E]; [done|by rewrite E].
  - intros Hb Hv. rewrite Hrun. cbn [snd].
    by rewrite decide_True, decide_False.
Qed.

End HardwareFlow.

(** C1 as stated fails: with no metadata file, hence no stored [HDF_EXT],
    the value read is empty and the function returns the empty string,
    not [xsa]. *)
Lemma is_hwflow_sdt_counterexample :
  (get_config_value (py "HDF_EXT") (MetaDataFile sample_vars "proj")
     (py "bool") (py "=y") (world_of ∅)).2 = Ok []
  /\ (is_hwflow_sdt sample_vars "proj" (world_of ∅)).2 = Ok []
  /\ (is_hwflow_sdt sample_vars "proj" (world_of ∅)).2 <> Ok (py "xsa").
Proof. split_and!; [reflexivity|reflexivity|discriminate]. Qed.

(** A stored [sdt] is returned as it is: [dts] is not the only stored
    value that yields [sdt]. *)
Example is_hwflow_sdt_stored_sdt :
  (is_hwflow_sdt sample_vars "proj"
     (world_of {[ MetaDataFile sample_vars "proj" := py "HDF_EXT=sdt" ++ [LF] ]})).2
  = Ok (py "sdt").
Proof. reflexivity. Qed.

(** C8 as stated fails: a configuration whose architecture choice is
    spelled [VERSAL-NET] resolves to a base that is not [versal], and
    [versal-net] is returned all the same. *)
Lemma get_xilinx_arch_counterexample :
  let w := world_of {[ SysConfFile sample_vars "proj"
                       := py "CONFIG_SYSTEM_VERSAL-NET=y" ++ [LF] ]} in
  (get_config_value (Xilinx_Arch_Conf sample_vars "proj")
     (SysConfFile sample_vars "proj") (py "choice") (py "=y") w).2
  = Ok (py "VERSAL-NET")
  /\ lower (py "VERSAL-NET") <> py "versal"
  /\ (get_xilinx_arch sample_vars "proj" w).2 = Ok (py "versal-net").
Proof. split_and!; [reflexivity|discriminate|reflexivity]. Qed.

(** The two cases the claim is about. *)
Example get_xilinx_arch_versal_net :
  (get_xilinx_arch sample_vars "proj"
     (world_of {[ SysConfFile sample_vars "proj"
                  := py "CONFIG_SYSTEM_VERSAL=y" ++ [LF]
                     ++ py "CONFIG_SUBSYSTEM_VARIANT_VERSALNET=y" ++ [LF] ]})).2
  = Ok (py "versal-net").
Proof. reflexivity. Qed.

Example get_xilinx_arch_versal :
  (get_xilinx_arch sample_vars "proj"
     (world_of {[ SysConfFile sample_vars "proj"
                  := py "CONFIG_SYSTEM_VERSAL=y" ++ [LF]
                     ++ py "CONFIG_SUBSYSTEM_VARIANT_VERSALAICORE=y" ++ [LF] ]})).2
  = Ok (py "versal").
Proof. reflexivity. Qed.

(** ** Claims on the version check *)

Section VersionCheck.
Context `{PyRe} (vars : plnx_vars).

Lemma CreateFile_run (f : string) (w : world) :
  CreateFile f w = (ensure_file f w, Ok tt).
Proof.
  unfold CreateFile, bind, os_path_exists, ensure_file.
  destruct (files w !! f) as [c|] eqn:E.
  - by rewrite bool_decide_eq_true_2 by eauto.
  - rewrite bool_decide_eq_false_2; [done|]. by intros [? ?].
Qed.

Lemma lines_of_ensure_file (f : string) (w : world) :
  lines_of (ensure_file f w) f = lines_of w f.
Proof.
  unfold ensure_file. destruct (files w !! f) as [c|] eqn:E; [done|].
  rewrite lines_of_with_file. unfold lines_of. by rewrite E.
Qed.

Lemma version_check_reads (proot : string) (w : world) (k : str -> M bool) :
  (let! v := get_config_value_bool (PetaLinux_Ver_Str vars)
               (MetaDataFile vars proot) in k v)
    (ensure_file (MetaDataFile vars proot) w)
  = k (stored_version vars proot w) (ensure_file (MetaDataFile vars proot) w).
Proof.
  unfold bind. rewrite get_config_value_bool_run.
  by rewrite lines_of_ensure_file.
Qed.

Lemma ensure_file_fields (f : string) (w : world) :
  environ (ensure_file f w) = environ w /\ stdin (ensure_file f w) = stdin w.
Proof. unfold ensure_file. by destruct (files w !! f). Qed.

Lemma with_file_ensure_file (f : string) (c : str) (w : world) :
  with_file f c (ensure_file f w) = with_file f c w.
Proof.
  unfold ensure_file. destruct (files w !! f); [done|].
  apply with_file_twice.
Qed.

(** No stored version: the current one is recorded, the answer is
    [True] and nothing is read from the terminal. *)
Lemma version_check_first_time (proot : string) (w : world) :
  stored_version vars proot w = [] ->
  petalinux_version_check vars proot w
  = (with_file (MetaDataFile vars proot)
       (concat (kept_lines (PetaLinux_Ver_Str vars)
                  (lines_of w (MetaDataFile vars proot)))
        ++ new_entry (PetaLinux_Ver_Str vars) (PetaLinux_Ver vars)) w,
     Ok true).
Proof.
  intros Hs. unfold petalinux_version_check. unfold bind at 1.
  rewrite CreateFile_run, version_check_reads, Hs. cbn [nonempty negb].
  unfold bind. rewrite update_config_value_run.
  by rewrite lines_of_ensure_file, with_file_ensure_file.
Qed.

(** The stored version is the current one: [True], no prompt. *)
Lemma version_check_same (proot : string) (w : world) :
  stored_version vars proot w <> [] ->
  stored_version vars proot w = PetaLinux_Ver vars ->
  petalinux_version_check vars proot w
  = (ensure_file (MetaDataFile vars proot) w, Ok true).
Proof.
  intros Hne Hs. unfold petalinux_version_check. unfold bind at 1.
  rewrite CreateFile_run, version_check_reads.
  destruct (stored_version vars proot w) as [|c v] eqn:E; [done|].
  cbn [nonempty negb]. by rewrite decide_False by (by intros ?).
Qed.

(** A mismatch with [PLNX_IGNORE_VER_CHK] set to a non-empty value:
    [True], and nothing is read from the terminal. *)
Lemma version_check_override (proot : string) (w : world) (v : str) :
  stored_version vars proot w <> [] ->
  stored_version vars proot w <> PetaLinux_Ver vars ->
  environ w !! "PLNX_IGNORE_VER_CHK" = Some v -> v <> [] ->
  petalinux_version_check vars proot w
  = (ensure_file (MetaDataFile vars proot) w, Ok true).
Proof.
  intros Hne Hs Henv Hv. unfold petalinux_version_check. unfold bind at 1.
  rewrite CreateFile_run, version_check_reads.
  destruct (stored_version vars proot w) as [|c s] eqn:E; [done|].
  cbn [nonempty negb]. rewrite decide_True by (by intros ?).
  unfold bind, environ_get.
  destruct (ensure_file_fields (MetaDataFile vars proot) w) as [-> _].
  rewrite Henv. by destruct v.
Qed.

(** A mismatch without override: the user is asked; any answer outside
    the accepted ones gives [False]. *)
Lemma version_check_refused (proot : string) (w : world)
    (answer : str) (rest : list str) :
  stored_version vars proot w <> [] ->
  stored_version vars proot w <> PetaLinux_Ver vars ->
  default [] (environ w !! "PLNX_IGNORE_VER_CHK") = [] ->
  stdin w = answer :: rest -> answer ∉ yes_forms ->
  petalinux_version_check vars proot w
  = (World (files (ensure_file (MetaDataFile vars proot) w))
           (environ w) rest, Ok false).
Proof.
  intros Hne Hs Henv Hin Hans. unfold petalinux_version_check.
  unfold bind at 1. rewrite CreateFile_run, version_check_reads.
  destruct (stored_version vars proot w) as [|c s] eqn:E; [done|].
  cbn [nonempty negb]. rewrite decide_True by (by intros ?).
  unfold bind, environ_get, input. cbv beta.
  destruct (ensure_file_fields (MetaDataFile vars proot) w) as [He Hi].
  rewrite He, Henv. cbn [nonempty]. rewrite Hi, Hin, He.
  by rewrite bool_decide_eq_false_2.
Qed.

(** A mismatch without override and an accepted answer: evaluating the
    arguments of the call that should record the version raises
    [NameError], so nothing is recorded and no boolean is returned. *)
Lemma version_check_accepted (proot : string) (w : world)
    (answer : str) (rest : list str) :
  stored_version vars proot w <> [] ->
  stored_version vars proot w <> PetaLinux_Ver vars ->
  default [] (environ w !! "PLNX_IGNORE_VER_CHK") = [] ->
  stdin w = answer :: rest -> answer ∈ yes_forms ->
  petalinux_version_check vars proot w
  = (World (files (ensure_file (MetaDataFile vars proot) w))
           (environ w) rest, Raise (NameError "petalinux_ver")).
Proof.
  intros Hne Hs Henv Hin Hans. unfold petalinux_version_check.
  unfold bind at 1. rewrite CreateFile_run, version_check_reads.
  destruct (stored_version vars proot w) as [|c s] eqn:E; [done|].
  cbn [nonempty negb]. rewrite decide_True by (by intros ?).
  unfold bind, environ_get, input. cbv beta.
  destruct (ensure_file_fields (MetaDataFile vars proot) w) as [He Hi].
  rewrite He, Henv. cbn [nonempty]. rewrite Hi, Hin, He.
  by rewrite bool_decide_eq_true_2.
Qed.

End VersionCheck.

(** C4.  The project was last touched by another release,
    [PLNX_IGNORE_VER_CHK] is unset and the user answers [y]: the check
    raises [NameError] on [petalinux_ver]; it returns no boolean and the
    metadata file still holds the old version. *)
Theorem petalinux_version_check_yes_answer :
  stored_version sample_vars "proj" mismatch_world = py "2023.2"
  /\ PetaLinux_Ver sample_vars = py "2024.1"
  /\ environ mismatch_world !! "PLNX_IGNORE_VER_CHK" = None
  /\ stdin mismatch_world = [py "y"]
  /\ (petalinux_version_check sample_vars "proj" mismatch_world).2
     = Raise (NameError "petalinux_ver")
  /\ (petalinux_version_check sample_vars "proj" mismatch_world).2 <> Ok true
  /\ files (petalinux_version_check sample_vars "proj" mismatch_world).1
       !! MetaDataFile sample_vars "proj"
     = Some (py "PETALINUX_VER=2023.2" ++ [LF]).
Proof.
  split_and!; [reflexivity..|discriminate|reflexivity].
Qed.

(** The other answers of the same project. *)
Example petalinux_version_check_no_answer :
  (petalinux_version_check sample_vars "proj"
     (World (files mismatch_world) ∅ [py "n"])).2 = Ok false.
Proof. reflexivity. Qed.

Example petalinux_version_check_override :
  petalinux_version_check sample_vars "proj"
    (World (files mismatch_world) {[ "PLNX_IGNORE_VER_CHK" := py "1" ]} [py "n"])
  = (World (files mismatch_world) {[ "PLNX_IGNORE_VER_CHK" := py "1" ]} [py "n"],
     Ok true).
Proof. reflexivity. Qed.

Example petalinux_version_check_new_project :
  (petalinux_version_check sample_vars "proj" (world_of ∅)).2 = Ok true
  /\ files (petalinux_version_check sample_vars "proj" (world_of ∅)).1
       !! MetaDataFile sample_vars "proj"
     = Some (py "PETALINUX_VER=2024.1" ++ [LF]).
Proof. split; reflexivity. Qed.

(** ** Hexadecimal offsets *)

Section Hex.






End Hex.

(** ** Claims on the flash partitions *)

Section Flash.
Context `{PyRe} (vars : plnx_vars).





End Flash.


(** The whole of [gen_sysconf_dtsi_file] on the same project. *)
Example gen_sysconf_dtsi_file_three_parts :
  files (gen_sysconf_dtsi_file sample_vars "proj" three_parts_world).1
    !! SdtSystemConfDtsi sample_vars "proj" []
  = Some (py "bootargs = " ++ [LF]
          ++ py "& mac " ++ [LF]
          ++ py "&qspi {" ++ [LF]
          ++ py "partition@0 boot 0x0 0x1000" ++ [LF]
          ++ py "partition@1 env 0x1000 0x2000" ++ [LF]
          ++ py "partition@2 kernel 0x3000 0x400" ++ [LF]
          ++ py "};" ++ [LF]).
Proof. reflexivity. Qed.

(** A size that is not a hexadecimal numeral stops the loop with
    [ValueError] at the next slot. *)
Example gen_sysconf_flash_bad_size :
  (gen_sysconf_flash sample_vars "proj" (py "m")
     (world_of {[ SysConfFile sample_vars "proj"
                  := py "CONFIG_SUBSYSTEM_FLASH_IP_NAME=qspi" ++ [LF]
                     ++ py "CONFIG_SUBSYSTEM_FLASH_PART0_NAME=boot" ++ [LF] ]})).2
  = Raise ValueError.
Proof. reflexivity. Qed.

(** * Further properties of [common_utils] *)

(** ** Reading back what was written *)

Section MoreLines.

Lemma universal_newlines_app (a b : str) :
  (forall b', b <> LF :: b') ->
  universal_newlines (a ++ b) = universal_newlines a ++ universal_newlines b.
Proof.
  intros Hb. remember (length a) as n eqn:Hn. revert a Hn.
  induction n as [n IH] using lt_wf_ind. intros a Hn.
  destruct a as [|c a]; [done|]. cbn [app universal_newlines].
  case_bool_decide as Hc.
  - destruct a as [|d a]; cbn [app].
    + destruct b as [|d b]; [done|].
      rewrite bool_decide_eq_false_2 by (intros ->; by apply (Hb b)).
      done.
    + case_bool_decide as Hd.
      * cbn [app]. f_equal. apply (IH (length a)); [simpl in Hn; lia|done].
      * f_equal. apply (IH (length (d :: a)) ltac:(simpl in *; lia) (d :: a)).
        done.
  - cbn [app]. f_equal. apply (IH (length a)); [simpl in Hn; lia|done].
Qed.


Lemma readlines_append (old s : str) :
  (forall s', s <> LF :: s') -> CR ∉ s ->
  Forall terminated (readlines old) ->
  readlines (old ++ s) = readlines old ++ split_lines [] s.
Proof.
  intros Hs Hcr Ht. unfold readlines.
  rewrite universal_newlines_app by done.
  rewrite (universal_newlines_id s) by done.
  rewrite <- (split_lines_concat (universal_newlines old) []) at 1.
  cbn [app]. by rewrite split_lines_terminated.
Qed.

End MoreLines.

(** ** [remove_str_from_file], [concate_files] and [add_str_to_file] *)

Section MoreFiles.
Context `{PyRe}.








(** X3.  [concate_files] appends the text of the source, as read in text
    mode, to the destination, which it creates when absent; when source
    and destination are the same existing file the text is appended to
    itself. *)
Theorem concate_files_appends (fromfile tofile : string) (c : str) (w : world) :
  files w !! fromfile = Some c ->
  concate_files fromfile tofile w
  = (with_file tofile
       (default [] (files w !! tofile) ++ universal_newlines c) w, Ok tt).
Proof.
  intros Hc. unfold concate_files, bind, open_a, open_read. cbv beta.
  fold (with_file tofile (default [] (files w !! tofile)) w).
  destruct (decide (fromfile = tofile)) as [->|Hne].
  - rewrite files_with_file, Hc. cbn [default from_option id].
    unfold file_write. rewrite files_with_file.
    cbn [default from_option id].
    fold (with_file tofile (c ++ universal_newlines c) (with_file tofile c w)).
    by rewrite with_file_twice.
  - rewrite files_with_file_ne, Hc by done.
    unfold file_write. rewrite files_with_file.
    cbn [default from_option id].
    fold (with_file tofile
            (default [] (files w !! tofile) ++ universal_newlines c)
            (with_file tofile (default [] (files w !! tofile)) w)).
    by rewrite with_file_twice.
Qed.

(** X4.  When the source is absent and is another path than the
    destination, [concate_files] raises [FileNotFoundError] after it has
    opened the destination: an absent destination is left behind, empty. *)
Theorem concate_files_missing_source (fromfile tofile : string) (w : world) :
  fromfile <> tofile -> files w !! fromfile = None ->
  concate_files fromfile tofile w
  = (with_file tofile (default [] (files w !! tofile)) w,
     Raise FileNotFoundError)
  /\ (files w !! tofile = None ->
      files (concate_files fromfile tofile w).1 !! tofile = Some []).
Proof.
  intros Hne Hc.
  assert (concate_files fromfile tofile w
          = (with_file tofile (default [] (files w !! tofile)) w,
             Raise FileNotFoundError)) as Hrun.
  { unfold concate_files, bind, open_a, open_read. cbv beta.
    fold (with_file tofile (default [] (files w !! tofile)) w).
    by rewrite files_with_file_ne, Hc by done. }
  split; [done|]. intros Ht. rewrite Hrun. cbn [fst].
  by rewrite files_with_file, Ht.
Qed.

Lemma string_found_existsb (s : str) (lines : list str) (init : bool) :
  fold_left (fun found line => if re_match s line then true else found)
    lines init
  = init || existsb (re_match s) lines.
Proof.
  revert init. induction lines as [|l lines IH]; intros init; simpl.
  - by rewrite orb_false_r.
  - rewrite IH. destruct (re_match s l), init; done.
Qed.

Lemma add_str_to_file_run (f : string) (s : str) (ignore : bool)
    (mode : open_mode) (w : world) :
  add_str_to_file f s ignore mode w
  = (if negb ignore || negb (existsb (re_match s) (lines_of w f))
     then with_file f (match mode with
                       | mode_w => s
                       | _ => default [] (files w !! f) ++ s
                       end) w
     else w, Ok tt).
Proof.
  unfold add_str_to_file, bind at 1. rewrite lines_if_exists_run.
  rewrite string_found_existsb. cbn [orb].
  destruct (negb ignore || negb (existsb (re_match s) (lines_of w f)));
    [|done].
  unfold bind. destruct mode; cbn [open_for].
  - unfold open_w. fold (with_file f [] w).
    rewrite (file_write_run f [] s) by apply files_with_file.
    by rewrite with_file_twice.
  - unfold open_a. fold (with_file f (default [] (files w !! f)) w).
    rewrite (file_write_run f (default [] (files w !! f)) s)
      by apply files_with_file.
    by rewrite with_file_twice.
  - unfold open_a. fold (with_file f (default [] (files w !! f)) w).
    rewrite (file_write_run f (default [] (files w !! f)) s)
      by apply files_with_file.
    by rewrite with_file_twice.
Qed.

(** X5.  With [ignore_if_exists=True], a one-line, non-empty [string] that
    [re.match] finds in its own text is added at most once: after a first
    call on a file whose lines all end with a newline, a second call
    changes nothing, in every mode. *)
Theorem add_str_to_file_once (f : string) (s : str) (mode : open_mode)
    (w : world) :
  text_line s -> re_match s s = true ->
  Forall terminated (lines_of w f) ->
  add_str_to_file f s true mode (add_str_to_file f s true mode w).1
  = ((add_str_to_file f s true mode w).1, Ok tt).
Proof.
  intros (body & -> & Hne & Hlf & Hcr) Hself Ht.
  rewrite (add_str_to_file_run f _ true mode w). cbn [negb orb fst].
  destruct (existsb (re_match (body ++ [LF])) (lines_of w f)) eqn:Hfound;
    cbn [negb].
  { rewrite add_str_to_file_run. cbn [negb orb]. by rewrite Hfound. }
  assert (split_lines [] (body ++ [LF]) = [body ++ [LF]]) as Hone.
  { change (body ++ [LF]) with (body ++ LF :: []) at 1.
    by rewrite split_lines_line. }
  assert (forall s', body ++ [LF] <> LF :: s') as Hhead.
  { intros s' E. destruct body as [|c body]; [done|].
    injection E as -> _. set_solver. }
  assert (CR ∉ body ++ [LF]) as Hcr'.
  { rewrite elem_of_app. intros [?|Hin]; [done|].
    revert Hin. vm_compute. set_solver. }
  rewrite add_str_to_file_run. cbn [negb orb].
  assert (existsb (re_match (body ++ [LF]))
            (lines_of
               (with_file f
                  match mode with
                  | mode_w => body ++ [LF]
                  | _ => default [] (files w !! f) ++ body ++ [LF]
                  end w) f) = true) as ->; [|done].
  rewrite lines_of_with_file. apply existsb_exists.
  exists (body ++ [LF]). split; [|done]. apply list_elem_of_In.
  assert (readlines (default [] (files w !! f) ++ body ++ [LF])
          = lines_of w f ++ [body ++ [LF]]) as Happ.
  { assert (readlines (default [] (files w !! f)) = lines_of w f) as Hold.
    { unfold lines_of. by destruct (files w !! f). }
    rewrite readlines_append by (by rewrite ?Hold). by rewrite Hone, Hold. }
  destruct mode.
  - unfold readlines. rewrite universal_newlines_id, Hone by done. set_solver.
  - rewrite Happ. set_solver.
  - rewrite Happ. set_solver.
Qed.

End MoreFiles.

(** ** More on [get_config_value] and [update_config_value] *)

Section MoreStore.
Context `{PyRe}.

Lemma remove_quote_free (s : str) : QUOTE ∉ remove_all s [QUOTE].
Proof.
  unfold remove_all. induction s as [|c s IH]; [set_solver|].
  cbn [remove_from startswith length]. rewrite andb_true_r.
  case_bool_decide as Hc; [exact IH|].
  apply not_elem_of_cons. split; [congruence|exact IH].
Qed.

Lemma scan_bool_quote_free (macro : str) (lines : list str) :
  QUOTE ∉ scan_bool macro lines.
Proof.
  induction lines as [|l lines IH]; [set_solver|]. simpl.
  destruct (startswith (strip l) (assign_prefix macro)); [|done].
  apply remove_quote_free.
Qed.

Lemma scan_asterisk_quote_free (macro end_macro v : str) (lines : list str) :
  scan_asterisk macro end_macro lines = Ok v -> QUOTE ∉ v.
Proof.
  induction lines as [|l lines IH]; simpl.
  - intros [= <-]. set_solver.
  - destruct (startswith (strip l) macro && re_search end_macro (strip l));
      [|done].
    destruct (split EQUALS (strip l) !! 1) as [x|]; [|done].
    intros [= <-]. apply remove_quote_free.
Qed.

(** X6.  In [bool] and [asterisk] mode the value [get_config_value]
    returns never contains a double quote. *)
Theorem get_config_value_no_quote (macro Type_ end_macro v : str)
    (f : string) (w : world) :
  Type_ = py "bool" \/ Type_ = py "asterisk" ->
  (get_config_value macro f Type_ end_macro w).2 = Ok v ->
  QUOTE ∉ v.
Proof.
  intros HT. rewrite get_config_value_run. cbn [snd]. unfold scan_lines.
  destruct HT as [-> | ->].
  - rewrite decide_True by done. intros [= <-]. apply scan_bool_quote_free.
  - rewrite !decide_False by discriminate. rewrite decide_True by done.
    apply scan_asterisk_quote_free.
Qed.

Lemma scan_choicelist_acc (macro end_macro acc : str) (lines : list str) :
  scan_choicelist macro end_macro acc lines
  = acc ++ choicelist_text macro end_macro lines.
Proof.
  unfold choicelist_text. revert acc.
  induction lines as [|l lines IH]; intros acc; cbn [scan_choicelist].
  - by rewrite filter_nil, app_nil_r.
  - rewrite filter_cons.
    destruct (choice_match macro end_macro l) eqn:E.
    + rewrite decide_True by done. unfold choice_match in E. rewrite E, IH.
      cbn [map concat]. unfold choice_value at 2. by rewrite <- !app_assoc.
    + rewrite decide_False by (by intros []). unfold choice_match in E.
      rewrite E. apply IH.
Qed.

Lemma scan_choice_first (macro end_macro : str) (lines : list str) :
  scan_choice macro end_macro lines
  = match filter (fun l => choice_match macro end_macro l) lines with
    | [] => []
    | l :: _ => choice_value macro end_macro l
    end.
Proof.
  induction lines as [|l lines IH]; [done|]. cbn [scan_choice].
  rewrite filter_cons.
  destruct (choice_match macro end_macro l) eqn:E.
  - rewrite decide_True by done. unfold choice_match in E. by rewrite E.
  - rewrite decide_False by (by intros []). unfold choice_match in E.
    by rewrite E.
Qed.

(** X7.  [choicelist] mode returns, for every matching line in file order,
    a space followed by the value of the line; [choice] mode returns the
    value of the first matching line.  So a non-empty [choicelist] result
    starts with a space followed by the [choice] result, and both are
    empty when no line matches. *)
Theorem get_config_value_choice_and_list (macro end_macro : str) (f : string)
    (w : world) :
  let hits := filter (fun l => choice_match macro end_macro l) (lines_of w f) in
  let c := (get_config_value macro f (py "choice") end_macro w).2 in
  let l := (get_config_value macro f (py "choicelist") end_macro w).2 in
  l = Ok (concat (map (fun x => py " " ++ choice_value macro end_macro x) hits))
  /\ c = Ok (match hits with [] => [] | x :: _ => choice_value macro end_macro x end)
  /\ (hits = [] -> c = Ok [] /\ l = Ok [])
  /\ (hits <> [] ->
      exists v rest, c = Ok v /\ l = Ok (py " " ++ v ++ rest)).
Proof.
  intros hits c l. unfold c, l. rewrite !get_config_value_run. cbn [snd].
  unfold scan_lines. rewrite !decide_False by discriminate.
  rewrite !decide_True by done. rewrite decide_False by discriminate.
  rewrite decide_True by done.
  rewrite scan_choicelist_acc, scan_choice_first. cbn [app].
  unfold choicelist_text. fold hits. split_and!; [done|done| |].
  - intros ->. done.
  - intros Hne. destruct hits as [|x hits']; [done|].
    exists (choice_value macro end_macro x),
           (concat (map (fun x => py " " ++ choice_value macro end_macro x) hits')).
    split; [done|]. cbn [map concat]. by rewrite <- !app_assoc.
Qed.

End MoreStore.

(** ** How updates compose *)

Section MoreUpdates.
Context `{PyRe}.

Lemma remove_from_absent (old s : str) :
  contains s old = false -> remove_from old 0 s = s.
Proof.
  induction s as [|c s IH]; [done|]. intros Hc. cbn [contains] in Hc.
  apply orb_false_iff in Hc as [Hs Hc]. cbn [remove_from].
  rewrite Hs. f_equal. by apply IH.
Qed.

Lemma remove_all_absent (s old : str) :
  contains s old = false -> remove_all s old = s.
Proof. destruct old; [done|]. apply remove_from_absent. Qed.

Lemma contains_single (s : str) (c : ascii) :
  c ∉ s -> contains s [c] = false.
Proof.
  intros Hc. apply contains_false. intros (a & b & ->). set_solver.
Qed.

(** What is read back from the file [update_config_value] has written,
    when the lines of the prior file all ended with a newline. *)
Lemma scan_after_update (macro value : str) (f : string) (w : world) :
  kconfig_name macro -> single_line value -> value <> py "disable" ->
  Forall terminated (lines_of w f) ->
  scan_bool macro (lines_of (update_config_value macro value f w).1 f)
  = remove_all (remove_all (rstrip value) (assign_prefix macro)) [QUOTE].
Proof.
  intros Hm Hv Hd Ht. rewrite update_config_value_run. cbn [fst].
  rewrite lines_of_with_file, updated_lines_terminated by done.
  rewrite scan_bool_skip.
  - unfold new_entry. rewrite decide_False by done. simpl.
    rewrite strip_assignment by done.
    rewrite startswith_app, remove_all_prefix; [done|].
    unfold assign_prefix. by destruct macro.
  - apply Forall_forall. intros l Hl. by apply kept_lines_no_assign in Hl.
Qed.

Lemma scan_after_update_clean (macro value : str) (f : string) (w : world) :
  kconfig_name macro -> clean_value macro value ->
  Forall terminated (lines_of w f) ->
  scan_bool macro (lines_of (update_config_value macro value f w).1 f) = value.
Proof.
  intros Hm (Hne & Hv & Hd & Hr & Hc & Hq) Ht.
  rewrite scan_after_update by done. rewrite Hr.
  rewrite (remove_all_absent value) by done.
  apply remove_all_absent. by apply contains_single.
Qed.

(** X8.  The last write wins, whatever the file held before: after two
    updates of the same KConfig symbol with one-line values, the second
    one not [disable], the value read in [bool] mode is the second value
    with its trailing whitespace, its occurrences of [macro=] and its
    double quotes removed. *)
Theorem update_twice_then_get (macro v1 v2 end_macro : str) (f : string)
    (w : world) :
  kconfig_name macro -> single_line v1 -> single_line v2 ->
  v2 <> py "disable" ->
  let w1 := (update_config_value macro v1 f w).1 in
  let w2 := (update_config_value macro v2 f w1).1 in
  get_config_value macro f (py "bool") end_macro w2
  = (w2, Ok (remove_all (remove_all (rstrip v2) (assign_prefix macro)) [QUOTE])).
Proof.
  intros Hm Hv1 Hv2 Hd w1 w2.
  rewrite get_config_value_run. unfold scan_lines.
  rewrite decide_True by done. f_equal. f_equal.
  apply scan_after_update; [done..|].
  unfold w1. rewrite update_config_value_run. cbn [fst].
  rewrite lines_of_with_file. by apply updated_lines_all_terminated.
Qed.









End MoreUpdates.

(** ** Updates and appends on concrete inputs *)

(** A source with a Windows line ending appended to an absent
    destination. *)
Lemma concate_files_appends_witness :
  files (world_of {[ "a" := py "x" ++ [CR; LF] ]}) !! "a"
  = Some (py "x" ++ [CR; LF])
  /\ concate_files "a" "b" (world_of {[ "a" := py "x" ++ [CR; LF] ]})
     = (with_file "b" (py "x" ++ [LF])
          (world_of {[ "a" := py "x" ++ [CR; LF] ]}), Ok tt).
Proof.
  assert (files (world_of {[ "a" := py "x" ++ [CR; LF] ]}) !! "a"
          = Some (py "x" ++ [CR; LF])) as Hc by reflexivity.
  split; [exact Hc|].
  rewrite (concate_files_appends "a" "b" (py "x" ++ [CR; LF])
             (world_of {[ "a" := py "x" ++ [CR; LF] ]}) Hc).
  reflexivity.
Defined.

(** An absent source: the destination springs into being, empty. *)
Lemma concate_files_missing_source_witness :
  "a" <> "b" /\ files (world_of ∅) !! "a" = None
  /\ files (concate_files "a" "b" (world_of ∅)).1 !! "b" = Some [].
Proof.
  assert ("a" <> "b") as Hne by discriminate.
  assert (files (world_of ∅) !! "a" = None) as Hc by reflexivity.
  split_and!; [done|exact Hc|].
  destruct (concate_files_missing_source "a" "b" (world_of ∅) Hne Hc)
    as [_ Hleft].
  apply Hleft. reflexivity.
Defined.

(** The include line of a build configuration, added twice. *)
Lemma add_str_to_file_once_witness :
  text_line (py "include conf/petalinuxbsp.conf" ++ [LF])
  /\ Forall terminated (lines_of one_line_cfg "cfg")
  /\ lines_of
       (add_str_to_file "cfg" (py "include conf/petalinuxbsp.conf" ++ [LF])
          true mode_a
          (add_str_to_file "cfg" (py "include conf/petalinuxbsp.conf" ++ [LF])
             true mode_a one_line_cfg).1).1 "cfg"
     = [py "X=1" ++ [LF]; py "include conf/petalinuxbsp.conf" ++ [LF]].
Proof.
  assert (text_line (py "include conf/petalinuxbsp.conf" ++ [LF])) as Hs.
  { exists (py "include conf/petalinuxbsp.conf").
    split_and!; [done|discriminate|by apply not_elem_by_compute..]. }
  assert (Forall terminated (lines_of one_line_cfg "cfg")) as Ht.
  { change (lines_of one_line_cfg "cfg") with [py "X=1" ++ [LF]].
    constructor; [|constructor].
    apply terminated_by_compute. reflexivity. }
  split_and!; [done..|].
  assert (re_match (py "include conf/petalinuxbsp.conf" ++ [LF])
            (py "include conf/petalinuxbsp.conf" ++ [LF]) = true) as Hself
    by reflexivity.
  rewrite (add_str_to_file_once "cfg" _ mode_a one_line_cfg Hs Hself Ht).
  reflexivity.
Defined.

(** A quoted value read in [bool] mode. *)
Lemma get_config_value_no_quote_witness :
  (get_config_value (py "FOO") "cfg" (py "bool") (py "=y")
     (world_of {[ "cfg" := py "FOO=" ++ quoted_bar ++ [LF] ]})).2
  = Ok (py "bar")
  /\ QUOTE ∉ py "bar".
Proof.
  split; [reflexivity|].
  apply (get_config_value_no_quote (py "FOO") (py "bool") (py "=y") (py "bar")
           "cfg" (world_of {[ "cfg" := py "FOO=" ++ quoted_bar ++ [LF] ]})).
  - by left.
  - reflexivity.
Defined.

(** Two values in a row, starting from a file without a final newline. *)
Lemma update_twice_then_get_witness :
  kconfig_name (py "FOO") /\ single_line (py "one")
  /\ single_line quoted_bar /\ quoted_bar <> py "disable"
  /\ (get_config_value (py "FOO") "cfg" (py "bool") (py "=y")
        (update_config_value (py "FOO") quoted_bar "cfg"
           (update_config_value (py "FOO") (py "one") "cfg"
              unterminated_cfg).1).1).2
     = Ok (py "bar").
Proof.
  assert (single_line (py "one")) as Hv1
    by (apply single_line_by_compute; reflexivity).
  assert (single_line quoted_bar) as Hv2
    by (apply single_line_by_compute; reflexivity).
  assert (quoted_bar <> py "disable") as Hd by discriminate.
  split_and!; [exact kconfig_name_FOO|done..|].
  rewrite (update_twice_then_get (py "FOO") (py "one") quoted_bar (py "=y")
             "cfg" unterminated_cfg kconfig_name_FOO Hv1 Hv2 Hd).
  reflexivity.
Defined.

Lemma kconfig_name_by_compute (macro : str) :
  forallb ident_char macro = true -> kconfig_name macro.
Proof. intros Hm. apply Forall_forall. intros c Hc.
  rewrite forallb_forall in Hm. apply Hm. by apply list_elem_of_In. Qed.



(** * Further properties of [plnx_utils] *)

(** ** The version check as a whole *)

Section MoreVersion.
Context `{PyRe} (vars : plnx_vars).

Lemma stdin_ensure_file (f : string) (w : world) :
  stdin (ensure_file f w) = stdin w.
Proof. by destruct (ensure_file_fields f w). Qed.

Lemma version_check_no_input (proot : string) (w : world) :
  stored_version vars proot w <> [] ->
  stored_version vars proot w <> PetaLinux_Ver vars ->
  default [] (environ w !! "PLNX_IGNORE_VER_CHK") = [] ->
  stdin w = [] ->
  (petalinux_version_check vars proot w).2 = Raise EOFError.
Proof.
  intros Hne Hs Henv Hin. unfold petalinux_version_check.
  unfold bind at 1. rewrite CreateFile_run, version_check_reads.
  destruct (stored_version vars proot w) as [|c s] eqn:E; [done|].
  cbn [nonempty negb]. rewrite decide_True by (by intros ?).
  unfold bind, environ_get, input. cbv beta.
  destruct (ensure_file_fields (MetaDataFile vars proot) w) as [He Hi].
  rewrite He, Henv. cbn [nonempty]. by rewrite Hi, Hin.
Qed.

(** X11.  [petalinux_version_check] returns [True] exactly when no
    version is stored, or the stored one is the current one, or
    [PLNX_IGNORE_VER_CHK] is set to a non-empty value; in these cases
    nothing is read from the terminal.  So it never returns [True] after
    having asked the user. *)
Theorem version_check_true_iff (proot : string) (w : world) :
  ((petalinux_version_check vars proot w).2 = Ok true
   <-> (stored_version vars proot w = []
        \/ stored_version vars proot w = PetaLinux_Ver vars
        \/ default [] (environ w !! "PLNX_IGNORE_VER_CHK") <> []))
  /\ ((petalinux_version_check vars proot w).2 = Ok true ->
      stdin (petalinux_version_check vars proot w).1 = stdin w).
Proof.
  destruct (decide (stored_version vars proot w = [])) as [He|Hne].
  { rewrite version_check_first_time by done. cbn [fst snd].
    split; [split; [by left|done]|done]. }
  destruct (decide (stored_version vars proot w = PetaLinux_Ver vars))
    as [Hs|Hs].
  { rewrite version_check_same by done. cbn [fst snd].
    split; [split; [by right; left|done]|]. intros _. apply stdin_ensure_file. }
  destruct (environ w !! "PLNX_IGNORE_VER_CHK") as [v|] eqn:Henv.
  - destruct (decide (v = [])) as [->|Hv].
    + cbn [default from_option id].
      assert ((petalinux_version_check vars proot w).2 <> Ok true) as Hno.
      { destruct (stdin w) as [|answer rest] eqn:Hin.
        - rewrite version_check_no_input; [done..|by rewrite Henv|done].
        - destruct (decide (answer ∈ yes_forms)).
          + by rewrite (version_check_accepted vars proot w answer rest);
              [|done..|by rewrite Henv|done|done].
          + by rewrite (version_check_refused vars proot w answer rest);
              [|done..|by rewrite Henv|done|done]. }
      split; [split; [done|]|done]. intros [?|[?|?]]; done.
    + rewrite (version_check_override vars proot w v) by done.
      cbn [fst snd default from_option id].
      split; [split; [by right; right|done]|].
      intros _. apply stdin_ensure_file.
  - cbn [default from_option id].
    assert ((petalinux_version_check vars proot w).2 <> Ok true) as Hno.
    { destruct (stdin w) as [|answer rest] eqn:Hin.
      - rewrite version_check_no_input; [done..|by rewrite Henv|done].
      - destruct (decide (answer ∈ yes_forms)).
        + by rewrite (version_check_accepted vars proot w answer rest);
            [|done..|by rewrite Henv|done|done].
        + by rewrite (version_check_refused vars proot w answer rest);
            [|done..|by rewrite Henv|done|done]. }
    split; [split; [done|]|done]. intros [?|[?|?]]; done.
Qed.

(** X12.  The check on a project without a stored version records the
    current one, so that a second check finds it, returns [True] and
    changes nothing: provided the metadata lines all end with a newline
    and the version text is read back as it is written. *)
Theorem version_check_rerun (proot : string) (w : world) :
  kconfig_name (PetaLinux_Ver_Str vars) ->
  clean_value (PetaLinux_Ver_Str vars) (PetaLinux_Ver vars) ->
  Forall terminated (lines_of w (MetaDataFile vars proot)) ->
  stored_version vars proot w = [] ->
  let w1 := (petalinux_version_check vars proot w).1 in
  stored_version vars proot w1 = PetaLinux_Ver vars
  /\ petalinux_version_check vars proot w1 = (w1, Ok true).
Proof.
  intros Hm Hc Ht Hs w1.
  assert (w1 = (update_config_value (PetaLinux_Ver_Str vars)
                  (PetaLinux_Ver vars) (MetaDataFile vars proot) w).1) as Hw1.
  { unfold w1. by rewrite version_check_first_time, update_config_value_run. }
  assert (stored_version vars proot w1 = PetaLinux_Ver vars) as Hv.
  { unfold stored_version. rewrite Hw1. by apply scan_after_update_clean. }
  split; [done|].
  rewrite version_check_same; [|rewrite Hv; by destruct Hc|done].
  f_equal. unfold ensure_file.
  rewrite Hw1, update_config_value_run. cbn [fst].
  by rewrite files_with_file.
Qed.

End MoreVersion.

(** A first check in an empty project, then a second one. *)
Lemma version_check_rerun_witness :
  kconfig_name (PetaLinux_Ver_Str sample_vars)
  /\ clean_value (PetaLinux_Ver_Str sample_vars) (PetaLinux_Ver sample_vars)
  /\ stored_version sample_vars "proj" (world_of ∅) = []
  /\ petalinux_version_check sample_vars "proj"
       (petalinux_version_check sample_vars "proj" (world_of ∅)).1
     = (world_of {[ MetaDataFile sample_vars "proj"
                    := py "PETALINUX_VER=2024.1" ++ [LF] ]}, Ok true).
Proof.
  assert (kconfig_name (PetaLinux_Ver_Str sample_vars)) as Hm
    by (apply kconfig_name_by_compute; reflexivity).
  assert (clean_value (PetaLinux_Ver_Str sample_vars)
            (PetaLinux_Ver sample_vars)) as Hc.
  { split_and!; [discriminate|by apply single_line_by_compute|discriminate
                |reflexivity|reflexivity|by apply not_elem_by_compute]. }
  assert (Forall terminated
            (lines_of (world_of ∅) (MetaDataFile sample_vars "proj"))) as Ht
    by constructor.
  assert (stored_version sample_vars "proj" (world_of ∅) = []) as Hs
    by reflexivity.
  split_and!; [done..|].
  destruct (version_check_rerun sample_vars "proj" (world_of ∅) Hm Hc Ht Hs)
    as [_ Hrun].
  rewrite Hrun. reflexivity.
Defined.

(** ** Offsets *)

Section MoreOffsets.
Context `{PyRe}.



End MoreOffsets.


(** ** The overlay file *)

Section MoreFlash.
Context `{PyRe} (vars : plnx_vars).



End MoreFlash.

Section MoreOverlay.
Context `{PyRe} (vars : plnx_vars).







End MoreOverlay.




(** ** Projects of a BSP *)

Section MoreProjects.
Context (MetaDataDir : str -> str) (runCmd : str -> option (str * str)).

Lemma collect_projects_elem (p : str) (contents : list str) :
  forall projects,
    p ∈ collect_projects projects contents
    <-> p ∈ projects \/ exists c, c ∈ contents /\ p = hd [] (split "/" c).
Proof.
  induction contents as [|c rest IH]; intros projects; cbn [collect_projects].
  - split; [by left|]. intros [?|(c & Hc & _)]; [done|]. by inversion Hc.
  - rewrite IH. case_bool_decide as Hin.
    + split.
      * intros [?|(d & Hd & ->)]; [by left|]. right. exists d. set_solver.
      * intros [?|(d & Hd & ->)]; [by left|].
        apply elem_of_cons in Hd as [->|Hd]; [by left|]. right. eauto.
    + split.
      * intros [[?| ->%list_elem_of_singleton]%elem_of_app|(d & Hd & ->)].
        -- by left.
        -- right. exists c. set_solver.
        -- right. exists d. set_solver.
      * intros [?|(d & Hd & ->)]; [left; set_solver|].
        apply elem_of_cons in Hd as [->|Hd]; [left; set_solver|].
        right. eauto.
Qed.

Lemma collect_projects_NoDup (contents : list str) :
  forall projects, NoDup projects -> NoDup (collect_projects projects contents).
Proof.
  induction contents as [|c rest IH]; intros projects Hnd;
    cbn [collect_projects]; [done|].
  apply IH. case_bool_decide as Hin; [done|].
  apply NoDup_app. split_and!; [done| |apply NoDup_singleton].
  intros x Hx ->%list_elem_of_singleton. done.
Qed.

Lemma split_ws_tokens (s : str) :
  forall cur t,
    Forall (fun c => is_space c = false) cur ->
    t ∈ split_ws cur s ->
    t <> [] /\ Forall (fun c => is_space c = false) t.
Proof.
  induction s as [|c s IH]; intros cur t Hcur; cbn [split_ws].
  - destruct cur; [by intros ?%elem_of_nil|].
    by intros ->%list_elem_of_singleton.
  - destruct (is_space c) eqn:Hc.
    + intros [Ht|Ht]%elem_of_app.
      * destruct cur; [by apply elem_of_nil in Ht|].
        by apply list_elem_of_singleton in Ht as ->.
      * by apply (IH [] t).
    + apply IH. apply Forall_app. split; [done|]. by constructor.
Qed.

Lemma split_head (sep : ascii) (s : str) :
  exists rest, s = hd [] (split sep s) ++ rest /\ sep ∉ hd [] (split sep s).
Proof.
  induction s as [|c s (rest & IH & Hsep)]; cbn [split].
  - exists []. split; [done|]. apply not_elem_of_nil.
  - case_bool_decide as Hc.
    + exists (c :: s). split; [done|]. apply not_elem_of_nil.
    + destruct (split sep s) as [|w ws]; cbn [hd] in *.
      * exists rest. split; [by rewrite IH at 1|]. set_solver.
      * exists rest. split; [by rewrite IH at 1|]. set_solver.
Qed.

(** X17.  [get_plnx_projects_from_bsp] raises when the tar command
    fails.  When it succeeds, the function returns, without repetition,
    exactly the first path components of the words of the listing whose
    metadata directory name occurs in the listing; a returned name holds
    neither white space nor a slash. *)
Theorem get_plnx_projects_from_bsp_projects (source : str) :
  match runCmd (contents_cmd source) with
  | None => get_plnx_projects_from_bsp MetaDataDir runCmd source = None
  | Some (contents, stderr) =>
      exists ps,
        get_plnx_projects_from_bsp MetaDataDir runCmd source = Some ps
        /\ NoDup ps
        /\ (forall p, p ∈ ps
              <-> (exists word, word ∈ split_ws [] contents
                                /\ p = hd [] (split "/" word))
                  /\ contains contents (MetaDataDir p) = true)
        /\ (forall p, p ∈ ps -> includes_space p = false /\ "/"%char ∉ p)
  end.
Proof.
  unfold get_plnx_projects_from_bsp.
  destruct (runCmd (contents_cmd source)) as [[contents stderr]|] eqn:Hrun;
    [|done].
  eexists. split; [done|].
  assert (forall p,
            p ∈ filter (fun p => contains contents (MetaDataDir p))
                  (collect_projects [] (split_ws [] contents))
            <-> (exists word, word ∈ split_ws [] contents
                              /\ p = hd [] (split "/" word))
                /\ contains contents (MetaDataDir p) = true) as Hspec.
  { intros p. rewrite list_elem_of_filter, collect_projects_elem.
    split.
    - intros [Hc [?%elem_of_nil|?]]; [done|]. split; [done|].
      by destruct (contains contents (MetaDataDir p)).
    - intros [? Hc]. split; [by rewrite Hc|by right]. }
  split_and!; [|done|].
  - apply NoDup_filter, collect_projects_NoDup, NoDup_nil_2.
  - intros p [(word & Hw & ->) _]%Hspec.
    destruct (split_ws_tokens contents [] word) as [_ Hsp]; [done..|].
    destruct (split_head "/" word) as (rest & Hrest & Hsl).
    split; [|done].
    rewrite Hrest in Hsp. apply Forall_app in Hsp as [Hsp _].
    unfold includes_space. apply not_true_is_false.
    intros (c & Hc & Hs)%existsb_exists.
    rewrite Forall_forall in Hsp.
    apply list_elem_of_In in Hc. apply Hsp in Hc. congruence.
Qed.

End MoreProjects.

(** ** Locating the project *)

Section MoreProjectRoot.
Context (MetaDataDir : str -> str).
Context (getcwd : str) (realpath : str -> str) (path_exists : str -> bool).

Lemma drop_to_slash_suffix (r : str) : exists pre, r = pre ++ drop_to_slash r.
Proof.
  induction r as [|c r [pre IH]]; cbn [drop_to_slash]; [by exists []|].
  case_bool_decide; [by exists []|]. exists (c :: pre). by rewrite IH at 1.
Qed.

Lemma drop_slashes_suffix (r : str) : exists pre, r = pre ++ drop_slashes r.
Proof.
  induction r as [|c r [pre IH]]; cbn [drop_slashes]; [by exists []|].
  case_bool_decide; [|by exists []]. exists (c :: pre). by rewrite IH at 1.
Qed.

(** A path is its own parent, or its parent is shorter. *)
Lemma dirname_shorter (p : str) :
  dirname p = p \/ length (dirname p) < length p.
Proof.
  assert (exists pre, rev p = pre ++ rev (dirname p)) as [pre Hpre].
  { unfold dirname.
    destruct (drop_to_slash_suffix (rev p)) as [a Ha].
    destruct (drop_slashes_suffix (drop_to_slash (rev p))) as [b Hb].
    destruct (_ && _); rewrite rev_involutive.
    - exists (a ++ b). by rewrite <- app_assoc, <- Hb.
    - by exists a. }
  destruct pre as [|c pre].
  - left. apply (f_equal (@rev ascii)) in Hpre. cbn [app] in Hpre.
    rewrite !rev_involutive in Hpre. by symmetry.
  - right. apply (f_equal length) in Hpre.
    rewrite length_app, !length_rev in Hpre. cbn in Hpre. lia.
Qed.

Lemma dirname_fixed (w : str) (i : nat) :
  dirname w = w -> Nat.iter i dirname w = w.
Proof.
  intros Hw. induction i as [|i IH]; [done|].
  change (Nat.iter (S i) dirname w) with (dirname (Nat.iter i dirname w)).
  by rewrite IH.
Qed.

Lemma iter_dirname_parent (w : str) (i : nat) :
  Nat.iter i dirname (dirname w) = Nat.iter (S i) dirname w.
Proof.
  induction i as [|i IH]; [done|].
  change (Nat.iter (S i) dirname (dirname w))
    with (dirname (Nat.iter i dirname (dirname w))).
  by rewrite IH.
Qed.

Lemma find_project_total (fuel : nat) :
  forall w, length w < fuel ->
    exists r, find_project MetaDataDir path_exists fuel w = Some r.
Proof.
  induction fuel as [|k IH]; intros w Hw; [lia|]. cbn [find_project].
  destruct (path_exists (MetaDataDir w)).
  - destruct (includes_space w); eauto.
  - case_decide as Hp; [eauto|].
    apply IH. destruct (dirname_shorter w); [done|lia].
Qed.

Lemma find_project_returns (fuel : nat) :
  forall w r, find_project MetaDataDir path_exists fuel w = Some r ->
    match r with
    | Returned p =>
        path_exists (MetaDataDir p) = true /\ includes_space p = false
        /\ exists i, p = Nat.iter i dirname w
    | SysExit status => status = 255%Z
    end.
Proof.
  induction fuel as [|k IH]; intros w r; [done|]. cbn [find_project].
  destruct (path_exists (MetaDataDir w)) eqn:He.
  - destruct (includes_space w) eqn:Hs; intros [= <-]; [done|].
    split_and!; [done..|]. by exists 0.
  - case_decide as Hp; [by intros [= <-]|].
    intros Hr. apply IH in Hr. destruct r as [p|status]; [|done].
    destruct Hr as (? & ? & i & ->). split_and!; [done..|].
    exists (S i). apply iter_dirname_parent.
Qed.

Lemma find_project_nearest (n : nat) :
  forall fuel w,
    length w < fuel ->
    (forall i, i < n ->
       path_exists (MetaDataDir (Nat.iter i dirname w)) = false) ->
    path_exists (MetaDataDir (Nat.iter n dirname w)) = true ->
    find_project MetaDataDir path_exists fuel w
    = Some (if includes_space (Nat.iter n dirname w) then SysExit 255
            else Returned (Nat.iter n dirname w)).
Proof.
  induction n as [|n IH]; intros fuel w Hw Hbelow Hn;
    (destruct fuel as [|k]; [lia|]); cbn [find_project].
  - change (Nat.iter 0 dirname w) with w in *. rewrite Hn.
    by destruct (includes_space w).
  - assert (path_exists (MetaDataDir w) = false) as H0
      by apply (Hbelow 0 ltac:(lia)).
    rewrite H0. case_decide as Hp.
    + rewrite dirname_fixed in Hn by done. congruence.
    + rewrite <- iter_dirname_parent. apply IH.
      * destruct (dirname_shorter w); [done|lia].
      * intros i Hi. rewrite iter_dirname_parent. apply Hbelow. lia.
      * by rewrite iter_dirname_parent.
Qed.

(** X18.  [exit_not_plnx_project] always ends: the walk towards the root
    needs no more rounds than the working directory has characters, plus
    one.  It ends with exit status 255 or returns a path whose metadata
    directory exists and which holds no white space; without a [proot]
    that path is the working directory or one of its ancestors. *)
Theorem exit_not_plnx_project_ends (proot : str) :
  exists r,
    exit_not_plnx_project MetaDataDir getcwd realpath path_exists proot
    = Some r
    /\ match r with
       | Returned p =>
           path_exists (MetaDataDir p) = true /\ includes_space p = false
           /\ (proot = [] -> exists i, p = Nat.iter i dirname getcwd)
       | SysExit status => status = 255%Z
       end.
Proof.
  unfold exit_not_plnx_project. destruct proot as [|c proot]; cbn [nonempty].
  - destruct (find_project_total (S (length getcwd)) getcwd) as [r Hr]; [lia|].
    exists r. split; [done|]. apply find_project_returns in Hr.
    destruct r as [p|status]; [|done]. destruct Hr as (? & ? & ?). eauto.
  - destruct (path_exists (MetaDataDir (realpath (c :: proot)))) eqn:He;
      cbn [negb]; [|by exists (SysExit 255)].
    destruct (includes_space (realpath (c :: proot))) eqn:Hs;
      [by exists (SysExit 255)|].
    exists (Returned (realpath (c :: proot))).
    split; [done|]. split; [done|]. split; [done|]. intros [=].
Qed.

(** X19.  Without a [proot], the project is looked for in the working
    directory and then in its ancestors, nearest first: the first
    directory of that chain holding a metadata directory decides, and the
    call exits with status 255 when the name of that directory includes
    white space. *)
Theorem exit_not_plnx_project_nearest (n : nat) :
  (forall i, i < n ->
     path_exists (MetaDataDir (Nat.iter i dirname getcwd)) = false) ->
  path_exists (MetaDataDir (Nat.iter n dirname getcwd)) = true ->
  exit_not_plnx_project MetaDataDir getcwd realpath path_exists []
  = Some (if includes_space (Nat.iter n dirname getcwd) then SysExit 255
          else Returned (Nat.iter n dirname getcwd)).
Proof.
  intros Hbelow Hn. unfold exit_not_plnx_project. cbn [nonempty].
  apply find_project_nearest; [lia|done..].
Qed.

(** X20.  Outside of any project, that is when neither the working
    directory nor any of its ancestors holds a metadata directory, the
    call without a [proot] exits with status 255. *)
Theorem exit_not_plnx_project_outside :
  (forall i, path_exists (MetaDataDir (Nat.iter i dirname getcwd)) = false) ->
  exit_not_plnx_project MetaDataDir getcwd realpath path_exists []
  = Some (SysExit 255).
Proof.
  intros Hnone. unfold exit_not_plnx_project. cbn [nonempty].
  destruct (find_project_total (S (length getcwd)) getcwd) as [r Hr]; [lia|].
  rewrite Hr. apply find_project_returns in Hr.
  destruct r as [p|status]; [|by subst].
  destruct Hr as (He & _ & i & ->). by rewrite Hnone in He.
Qed.

End MoreProjectRoot.

(** ** The prefix length of a network mask *)

Section MoreNetmask.

Lemma count_char_cons (c d : ascii) (s : str) :
  count_char c (d :: s)
  = (if bool_decide (d = c) then 1 else 0) + count_char c s.
Proof.
  unfold count_char. rewrite filter_cons.
  case_bool_decide; by rewrite ?decide_True, ?decide_False by done.
Qed.

Lemma count_bin_digits (p : positive) :
  forall acc,
    count_char "1" (bin_digits p acc) = ones_pos p + count_char "1" acc.
Proof.
  induction p as [p IH|p IH|]; intros acc; cbn [bin_digits ones_pos].
  - rewrite IH, count_char_cons. rewrite bool_decide_eq_true_2 by done. lia.
  - rewrite IH, count_char_cons. by rewrite bool_decide_eq_false_2.
  - rewrite count_char_cons. by rewrite bool_decide_eq_true_2.
Qed.

Lemma count_bin (n : nat) : count_char "1" (bin (Z.of_nat n)) = ones n.
Proof.
  unfold ones. destruct n as [|n]; [done|].
  change (Z.of_nat (S n)) with (Zpos (Pos.of_succ_nat n)).
  change (N.of_nat (S n)) with (Npos (Pos.of_succ_nat n)).
  cbn [bin py list_ascii_of_string app].
  rewrite !count_char_cons, count_bin_digits.
  rewrite !bool_decide_eq_false_2 by done. cbn. lia.
Qed.

Lemma split_part (sep : ascii) (a rest : str) :
  sep ∉ a -> split sep (a ++ sep :: rest) = a :: split sep rest.
Proof.
  induction a as [|c a IH]; intros Ha; cbn [app split].
  - by rewrite bool_decide_eq_true_2.
  - rewrite bool_decide_eq_false_2 by set_solver.
    rewrite IH by set_solver. done.
Qed.

Lemma split_last_part (sep : ascii) (a : str) : sep ∉ a -> split sep a = [a].
Proof.
  induction a as [|c a IH]; intros Ha; cbn [split]; [done|].
  rewrite bool_decide_eq_false_2 by set_solver.
  rewrite IH by set_solver. done.
Qed.

(** The decimal writing of a number below 256 is read back by [int] and
    holds no dot: checked on each of them. *)
Lemma octet_text (n : nat) :
  n < 256 ->
  int10 (str_of_nat n) = Some (Z.of_nat n) /\ "."%char ∉ str_of_nat n.
Proof.
  intros Hn.
  assert (forallb (fun n => bool_decide (int10 (str_of_nat n) = Some (Z.of_nat n))
                            && negb (bool_decide ("."%char ∈ str_of_nat n)))
            (seq 0 256) = true) as Hall by (vm_compute; reflexivity).
  rewrite forallb_forall in Hall. specialize (Hall n).
  rewrite in_seq in Hall. specialize (Hall ltac:(lia)).
  apply andb_true_iff in Hall as [H1 H2].
  apply bool_decide_eq_true_1 in H1.
  apply negb_true_iff, bool_decide_eq_false_1 in H2. done.
Qed.


(** X21.  For a mask written as four decimal numbers below 256 joined by
    dots, the prefix length computed in [config_initscripts] is the
    number of one bits of the four numbers together. *)
Theorem cidr_netmask_dotted_quad (a b c d : nat) :
  a < 256 -> b < 256 -> c < 256 -> d < 256 ->
  cidr_netmask (dotted_quad a b c d)
  = Ok (ones a + ones b + ones c + ones d).
Proof.
  intros Ha Hb Hc Hd.
  destruct (octet_text a Ha) as [Ia Da], (octet_text b Hb) as [Ib Db],
    (octet_text c Hc) as [Ic Dc], (octet_text d Hd) as [Id Dd].
  unfold cidr_netmask, dotted_quad. cbn [py list_ascii_of_string app].
  rewrite !split_part, split_last_part by done.
  cbn [sum_of_ones]. rewrite Ia, Ib, Ic, Id, !count_bin.
  f_equal. lia.
Qed.


End MoreNetmask.

(** The mask of a /23 network. *)
Lemma cidr_netmask_dotted_quad_witness :
  255 < 256 /\ 254 < 256 /\ 0 < 256
  /\ cidr_netmask (py "255.255.254.0") = Ok 23.
Proof.
  split_and!; [lia..|].
  exact (cidr_netmask_dotted_quad 255 255 254 0
           ltac:(lia) ltac:(lia) ltac:(lia) ltac:(lia)).
Defined.

(** ** Paths derived from the configuration *)

Section MorePaths.
Context `{PyRe} (vars : plnx_vars).
Context (EsdkSrcPath YoctoSrcPath DevtoolConf : str).

Lemma endswith_app (a b : str) : endswith (a ++ b) b = true.
Proof. unfold endswith. rewrite rev_app_distr. apply startswith_app. Qed.

Lemma endswith_join (a b : str) : endswith (os_path_join a b) b = true.
Proof.
  unfold os_path_join. destruct (startswith b (py "/")).
  - apply (endswith_app [] b).
  - destruct (_ || _); [apply endswith_app|].
    rewrite app_assoc. apply endswith_app.
Qed.

Lemma endswith_last (a : str) (c d : ascii) :
  c <> d -> endswith (a ++ [c]) [d] = false.
Proof.
  intros Hcd. unfold endswith. rewrite rev_app_distr. cbn.
  by rewrite bool_decide_eq_false_2 by congruence.
Qed.

(** X23.  [get_yocto_path] leaves the world alone and returns the SDK
    directory joined with the architecture it also returns, so that the
    path always ends with that architecture; the architecture is
    [aarch64_dt], whatever was asked for, exactly when [dts] or [sdt] is
    stored for [HDF_EXT]. *)
Theorem get_yocto_path_value (proot : string) (arch : str) (w : world) :
  let stored :=
    scan_bool (py "HDF_EXT") (lines_of w (MetaDataFile vars proot)) in
  let arch' :=
    if decide (stored = py "dts" \/ stored = py "sdt") then py "aarch64_dt"
    else arch in
  get_yocto_path vars EsdkSrcPath proot arch w
  = (w, Ok (os_path_join EsdkSrcPath arch', arch'))
  /\ endswith (os_path_join EsdkSrcPath arch') arch' = true.
Proof.
  intros stored arch'. split; [|apply endswith_join].
  unfold get_yocto_path, is_hwflow_sdt.
  unfold bind. rewrite get_config_value_bool_run. fold stored.
  unfold arch'. destruct (decide (stored = py "dts")) as [Hd|Hd].
  - unfold ret. rewrite decide_True by done. by rewrite decide_True by by left.
  - unfold ret. destruct (decide (stored = py "sdt")) as [Hs|Hs].
    + by rewrite decide_True by by right.
    + rewrite decide_False; [done|]. by intros [?|?].
Qed.

(** X24.  [get_buildtools_path] is the Yocto source path, with a slash
    added unless it is empty or ends with one, followed by
    [buildtools_extended] for the type [extended] and by [buildtools] for
    every other type, and by the name of the environment script after a
    slash. *)
Theorem get_buildtools_path_value (Type_ : str) :
  get_buildtools_path YoctoSrcPath Type_
  = (if negb (nonempty YoctoSrcPath) || endswith YoctoSrcPath (py "/")
     then YoctoSrcPath else YoctoSrcPath ++ py "/")
    ++ (if decide (Type_ = py "extended") then py "buildtools_extended"
        else py "buildtools")
    ++ py "/environment-setup-x86_64-petalinux-linux".
Proof.
  assert (forall a body last,
            last <> "/"%char ->
            os_path_join (os_path_join a (body ++ [last]))
              (py "environment-setup-x86_64-petalinux-linux")
            = os_path_join a (body ++ [last])
              ++ py "/environment-setup-x86_64-petalinux-linux") as Hjoin.
  { intros a body last Hl.
    assert (exists x, os_path_join a (body ++ [last]) = x ++ [last])
      as [x Hx].
    { unfold os_path_join. destruct (startswith _ _); [by exists body|].
      destruct (_ || _).
      - exists (a ++ body). by rewrite app_assoc.
      - exists (a ++ py "/" ++ body). by rewrite <- !app_assoc. }
    rewrite Hx. unfold os_path_join at 1.
    cbn [startswith py list_ascii_of_string].
    rewrite bool_decide_eq_false_2 by done. cbn [andb].
    rewrite endswith_last by done.
    destruct x; cbn [app nonempty negb orb]; done. }
  assert (forall a b c,
            c <> "/"%char ->
            os_path_join a (c :: b)
            = (if negb (nonempty a) || endswith a (py "/")
               then a else a ++ py "/") ++ c :: b) as Hfirst.
  { intros a b c Hc. unfold os_path_join.
    cbn [startswith py list_ascii_of_string].
    rewrite bool_decide_eq_false_2 by congruence. cbn [andb].
    destruct (_ || _); [done|]. by rewrite <- app_assoc. }
  unfold get_buildtools_path. case_decide.
  - change (py "buildtools_extended")
      with (py "buildtools_extende" ++ ["d"%char]) at 1.
    rewrite (Hjoin YoctoSrcPath (py "buildtools_extende") "d"%char)
      by done.
    change (py "buildtools_extende" ++ ["d"%char])
      with ("b"%char :: py "uildtools_extended").
    rewrite Hfirst by done. by rewrite <- app_assoc.
  - change (py "buildtools") with (py "buildtool" ++ ["s"%char]) at 1.
    rewrite (Hjoin YoctoSrcPath (py "buildtool") "s"%char) by done.
    change (py "buildtool" ++ ["s"%char]) with ("b"%char :: py "uildtools").
    rewrite Hfirst by done. by rewrite <- app_assoc.
Qed.

Lemma replace_from_skip (old new a rest : str) :
  replace_from old new (length a) (a ++ rest) = replace_from old new 0 rest.
Proof. induction a as [|c a IH]; simpl; [reflexivity|exact IH]. Qed.

Lemma replace_from_no_dollar (old new s : str) :
  "$"%char ∉ s -> replace_from ("$"%char :: old) new 0 s = s.
Proof.
  induction s as [|c s IH]; intros Hs; [done|].
  cbn [replace_from startswith].
  rewrite bool_decide_eq_false_2 by set_solver. cbn [andb].
  f_equal. apply IH. set_solver.
Qed.

Lemma replace_from_one (old new pre rest : str) :
  "$"%char ∉ pre -> "$"%char ∉ rest ->
  replace_from ("$"%char :: old) new 0 (pre ++ "$"%char :: old ++ rest)
  = pre ++ new ++ rest.
Proof.
  intros Hpre Hrest. induction pre as [|c pre IH].
  - cbn [app]. cbn [replace_from].
    change ("$"%char :: old ++ rest) with (("$"%char :: old) ++ rest) at 1.
    rewrite startswith_app.
    replace (length ("$"%char :: old) - 1) with (length old)
      by (cbn [length]; lia).
    by rewrite replace_from_skip, replace_from_no_dollar.
  - cbn [app replace_from startswith].
    rewrite bool_decide_eq_false_2 by set_solver. cbn [andb].
    f_equal. apply IH. set_solver.
Qed.

(** X25.  [get_workspace_path] puts the project root in the place of one
    reference to it, written [${PROOT}] or [$PROOT], in the configured
    workspace path, and leaves a path without a dollar sign as it is;
    this for a project root and a surrounding text without dollar
    signs. *)
Theorem get_workspace_path_value (proot : string) (pre rest : str)
    (w : world) :
  let stored :=
    scan_bool DevtoolConf (lines_of w (SysConfFile vars proot)) in
  "$"%char ∉ pre -> "$"%char ∉ rest -> "$"%char ∉ py proot ->
  (stored = pre ++ py "${PROOT}" ++ rest
   \/ stored = pre ++ py "$PROOT" ++ rest ->
   get_workspace_path vars DevtoolConf proot w
   = (w, Ok (pre ++ py proot ++ rest)))
  /\ (stored = pre ->
      get_workspace_path vars DevtoolConf proot w = (w, Ok pre)).
Proof.
  intros stored Hpre Hrest Hproot.
  assert (get_workspace_path vars DevtoolConf proot w
          = (w, Ok (replace (replace stored (py "${PROOT}") (py proot))
                      (py "$PROOT") (py proot)))) as Hrun.
  { unfold get_workspace_path, bind. by rewrite get_config_value_bool_run. }
  rewrite Hrun. unfold replace.
  change (py "${PROOT}") with ("$"%char :: py "{PROOT}").
  change (py "$PROOT") with ("$"%char :: py "PROOT").
  split; [intros [E|E]|intros E]; rewrite E; cbn [app].
  - rewrite replace_from_one by done.
    rewrite replace_from_no_dollar; [done|].
    rewrite !elem_of_app. by intros [?|[?|?]].
  - assert (replace_from ("$"%char :: py "{PROOT}") (py proot) 0
              (pre ++ "$"%char :: py "PROOT" ++ rest)
            = pre ++ "$"%char :: py "PROOT" ++ rest) as Hfirst.
    { clear Hrun E. induction pre as [|c pre IH].
      - cbn [app py list_ascii_of_string replace_from startswith].
        rewrite bool_decide_eq_true_2 by done.
        rewrite bool_decide_eq_false_2 by done. cbn [andb].
        f_equal.
        apply (replace_from_no_dollar (py "{PROOT}") (py proot)
                 (py "PROOT" ++ rest)).
        rewrite elem_of_app. intros [Hp|?]; [|done].
        by apply (not_elem_by_compute "$"%char (py "PROOT")) in Hp.
      - cbn [app replace_from startswith].
        rewrite bool_decide_eq_false_2 by set_solver. cbn [andb].
        f_equal. apply IH. set_solver. }
    rewrite Hfirst. rewrite replace_from_one by done. reflexivity.
  - rewrite (replace_from_no_dollar (py "{PROOT}") (py proot) pre) by done.
    rewrite replace_from_no_dollar by done. reflexivity.
Qed.

End MorePaths.

(** ** Nested dictionaries *)

Section MoreDict.

Lemma dict_set2_dict (Dict : dict) (key sub_key : string) (value : str)
    (d : gmap string str) :
  Dict !! key = Some (VDict d) ->
  dict_set2 Dict key sub_key value
  = inr (<[key := VDict (<[sub_key := value]> d)]> Dict).
Proof. intros Hk. unfold dict_set2. by rewrite Hk. Qed.

(** X26.  Without [append] and with a sub-key, [add_dictkey] stores the
    value under [Dict[key][sub_key]], creating the inner dictionary when
    the key is new and keeping its other entries when it exists; the value
    is then what is read there, and a later value replaces it. *)
Theorem add_dictkey_stores (Dict : dict) (key sub_key : string)
    (value value' sep : str) :
  sub_key <> ""%string ->
  (forall s, Dict !! key <> Some (VStr s)) ->
  let inner := match Dict !! key with Some (VDict d) => d | _ => ∅ end in
  let D' := <[key := VDict (<[sub_key := value]> inner)]> Dict in
  add_dictkey Dict key sub_key value false sep = (D', None)
  /\ dict_get2 D' key sub_key = inr value
  /\ add_dictkey D' key sub_key value' false sep
     = (<[key := VDict (<[sub_key := value']> inner)]> Dict, None).
Proof.
  intros Hsub Hstr inner D'.
  assert (forall (D : dict) d v,
            D !! key = Some (VDict d) ->
            add_dictkey D key sub_key v false sep
            = (<[key := VDict (<[sub_key := v]> d)]> D, None)) as Hset.
  { intros D d v Hk. unfold add_dictkey.
    rewrite bool_decide_eq_true_2 by done. cbn [negb].
    by rewrite (dict_set2_dict D key sub_key v d). }
  split_and!.
  - unfold D', inner. destruct (Dict !! key) as [[s|d]|] eqn:Hk.
    + by destruct (Hstr s).
    + by apply Hset.
    + unfold add_dictkey. rewrite bool_decide_eq_true_2 by done.
      cbn [negb]. unfold dict_set2 at 1. rewrite Hk. cbn [is_KeyError].
      rewrite (dict_set2_dict _ key sub_key value ∅)
        by apply lookup_insert_eq.
      by rewrite insert_insert_eq.
  - unfold dict_get2, D'. rewrite lookup_insert_eq.
    by rewrite lookup_insert_eq.
  - rewrite (Hset D' (<[sub_key := value]> inner) value')
      by apply lookup_insert_eq.
    unfold D'. by rewrite !insert_insert_eq.
Qed.

Lemma add_dictkey_append_dict (Dict : dict) (key sub_key : string)
    (d : gmap string str) (value sep : str) :
  sub_key <> ""%string ->
  Dict !! key = Some (VDict d) ->
  add_dictkey Dict key sub_key value true sep
  = (<[key := VDict (<[sub_key := match d !! sub_key with
                                   | Some old => old ++ sep ++ value
                                   | None => value
                                   end]> d)]> Dict, None).
Proof.
  intros Hsub Hk. unfold add_dictkey.
  rewrite bool_decide_eq_true_2 by done. cbn [negb].
  destruct (d !! sub_key) as [old|] eqn:Hs.
  - unfold dict_add2, dict_get2. rewrite Hk, Hs.
    by rewrite (dict_set2_dict Dict key sub_key _ d).
  - assert (dict_add2 Dict key sub_key (sep ++ value)
            = inl (KeyError sub_key)) as ->.
    { unfold dict_add2, dict_get2. by rewrite Hk, Hs. }
    cbn [is_KeyError].
    rewrite (dict_set2_dict Dict key sub_key [] d) by done.
    unfold dict_add2, dict_get2. rewrite !lookup_insert_eq.
    rewrite (dict_set2_dict _ key sub_key _ (<[sub_key := []]> d))
      by apply lookup_insert_eq.
    by rewrite !insert_insert_eq.
Qed.

(** X27.  With [append] and a sub-key under a key that holds a
    dictionary, the first value of a sub-key is stored as it is and every
    later one is added after the separator: two calls on a new sub-key
    leave the two values joined by the separator. *)
Theorem add_dictkey_appends (Dict : dict) (key sub_key : string)
    (d : gmap string str) (v1 v2 sep : str) :
  sub_key <> ""%string ->
  Dict !! key = Some (VDict d) ->
  let D1 := (add_dictkey Dict key sub_key v1 true sep).1 in
  let D2 := (add_dictkey D1 key sub_key v2 true sep).1 in
  dict_get2 D1 key sub_key
  = inr (match d !! sub_key with
         | Some old => old ++ sep ++ v1
         | None => v1
         end)
  /\ dict_get2 D2 key sub_key
     = inr (match d !! sub_key with
            | Some old => (old ++ sep ++ v1) ++ sep ++ v2
            | None => v1 ++ sep ++ v2
            end)
  /\ (add_dictkey D1 key sub_key v2 true sep).2 = None.
Proof.
  intros Hsub Hk D1 D2.
  assert (D1 = <[key := VDict (<[sub_key := match d !! sub_key with
                                            | Some old => old ++ sep ++ v1
                                            | None => v1
                                            end]> d)]> Dict) as HD1.
  { unfold D1. by rewrite (add_dictkey_append_dict Dict key sub_key d). }
  assert (forall D x dd,
            D = <[key := VDict (<[sub_key := x]> dd)]> Dict ->
            dict_get2 D key sub_key = inr x) as Hget.
  { intros D x dd ->. unfold dict_get2. by rewrite !lookup_insert_eq. }
  split_and!.
  - by apply (Hget D1 _ d).
  - unfold D2.
    rewrite (add_dictkey_append_dict D1 key sub_key _ v2 sep Hsub
               ltac:(rewrite HD1; apply lookup_insert_eq)).
    cbn [fst]. rewrite lookup_insert_eq.
    unfold dict_get2. rewrite !lookup_insert_eq.
    by destruct (d !! sub_key).
  - by rewrite (add_dictkey_append_dict D1 key sub_key _ v2 sep Hsub
                  ltac:(rewrite HD1; apply lookup_insert_eq)).
Qed.

(** X28.  [add_dictkey] raises exactly when a sub-key is given and
    either the key holds a string, or [append] is asked for under a key
    that is not in the dictionary: [append] does not create the key,
    while the plain call does.  When it raises, the dictionary is left as
    it was. *)
Theorem add_dictkey_raises (Dict : dict) (key sub_key : string)
    (value sep : str) (append : bool) :
  ((add_dictkey Dict key sub_key value append sep).2 <> None
   <-> sub_key <> ""%string
       /\ ((exists s, Dict !! key = Some (VStr s))
           \/ (append = true /\ Dict !! key = None)))
  /\ ((add_dictkey Dict key sub_key value append sep).2 <> None ->
      (add_dictkey Dict key sub_key value append sep).1 = Dict)
  /\ (sub_key <> ""%string -> Dict !! key = None ->
      add_dictkey Dict key sub_key value true sep
      = (Dict, Some (KeyError key))).
Proof.
  assert (sub_key <> ""%string -> Dict !! key = None ->
          add_dictkey Dict key sub_key value true sep
          = (Dict, Some (KeyError key))) as Hmissing.
  { intros Hsub Hk. unfold add_dictkey.
    rewrite bool_decide_eq_true_2 by done. cbn [negb].
    unfold dict_add2, dict_get2, dict_set2. by rewrite Hk. }
  destruct (decide (sub_key = ""%string)) as [Hsub|Hsub].
  { unfold add_dictkey. rewrite bool_decide_eq_false_2 by (by intros ?).
    cbn [fst snd]. split_and!; [|done|done]. split; [done|]. by intros [? _]. }
  destruct (Dict !! key) as [[s|d]|] eqn:Hk.
  - assert (add_dictkey Dict key sub_key value append sep
            = (Dict, Some TypeError)) as ->.
    { unfold add_dictkey. rewrite bool_decide_eq_true_2 by done.
      unfold dict_add2, dict_get2, dict_set2. rewrite Hk.
      by destruct append. }
    cbn [fst snd]. split_and!; [|done|done]. split; [|done].
    intros _. split; [done|]. left. by exists s.
  - assert ((add_dictkey Dict key sub_key value append sep).2 = None) as Hok.
    { destruct append.
      - by rewrite (add_dictkey_append_dict Dict key sub_key d value sep).
      - unfold add_dictkey. rewrite bool_decide_eq_true_2 by done.
        cbn [negb]. by rewrite (dict_set2_dict Dict key sub_key value d). }
    rewrite Hok. split_and!; [|done|done]. split; [done|].
    intros [_ [[s [=]]|[_ [=]]]].
  - destruct append.
    + rewrite Hmissing by done. cbn [fst snd].
      split_and!; [|done|done]. split; [|done]. intros _. split; [done|].
      by right.
    + assert ((add_dictkey Dict key sub_key value false sep).2 = None) as Hok.
      { unfold add_dictkey. rewrite bool_decide_eq_true_2 by done.
        cbn [negb]. unfold dict_set2 at 1. rewrite Hk. cbn [is_KeyError].
        by rewrite (dict_set2_dict _ key sub_key value ∅)
          by apply lookup_insert_eq. }
      rewrite Hok. split_and!; [|done|done]. split; [done|].
      intros [_ [[s [=]]|[[=] _]]].
Qed.

End MoreDict.

(** ** Removing and creating files *)

Section MoreRemove.
Context `{PyRe}.

Lemma RemoveFile_run (f : string) (w : world) :
  RemoveFile f w = (set_files (delete f) w, Ok tt).
Proof.
  unfold RemoveFile, bind, os_path_exists, os_remove.
  destruct (files w !! f) as [c|] eqn:E.
  - rewrite bool_decide_eq_true_2 by eauto. by rewrite E.
  - rewrite bool_decide_eq_false_2 by (by intros [? ?]).
    unfold ret, set_files. rewrite delete_id by done. by destruct w.
Qed.

(** X29.  [RemoveFile] never raises, also when there is no file; it
    leaves no file at the path and does not touch another path.
    Creating the file after removing it leaves it empty, and removing a
    file that [CreateFile] has just created restores the world. *)
Theorem RemoveFile_CreateFile (f : string) (w : world) :
  (RemoveFile f w).2 = Ok tt
  /\ files (RemoveFile f w).1 !! f = None
  /\ (forall g, g <> f -> files (RemoveFile f w).1 !! g = files w !! g)
  /\ (RemoveFile f >> CreateFile f) w = (with_file f [] w, Ok tt)
  /\ (files w !! f = None -> (CreateFile f >> RemoveFile f) w = (w, Ok tt)).
Proof.
  rewrite RemoveFile_run. cbn [fst snd set_files files].
  split_and!.
  - done.
  - apply lookup_delete_eq.
  - intros g Hg. by apply lookup_delete_ne.
  - unfold bind. rewrite RemoveFile_run, CreateFile_run.
    unfold ensure_file. cbn [set_files files]. rewrite lookup_delete_eq.
    unfold with_file, set_files. cbn [files environ stdin].
    by rewrite insert_delete_eq.
  - intros Hf. unfold bind. rewrite CreateFile_run, RemoveFile_run.
    unfold ensure_file. rewrite Hf.
    unfold with_file, set_files. cbn [files environ stdin].
    rewrite delete_insert_eq, delete_id by done. by destruct w.
Qed.

End MoreRemove.

(** ** The hardware flow after an update *)

Section MoreHardwareFlow.
Context `{PyRe} (vars : plnx_vars).

(** X30.  Once [update_config_value] has stored a value for [HDF_EXT]
    in the metadata file, [is_hwflow_sdt] returns that value, with [sdt]
    in the place of [dts]: for a value that is read back as it is
    written, and metadata lines that all end with a newline. *)
Theorem is_hwflow_sdt_after_update (proot : string) (value : str) (w : world) :
  clean_value (py "HDF_EXT") value ->
  Forall terminated (lines_of w (MetaDataFile vars proot)) ->
  let w' := (update_config_value (py "HDF_EXT") value
               (MetaDataFile vars proot) w).1 in
  is_hwflow_sdt vars proot w'
  = (w', Ok (if decide (value = py "dts") then py "sdt" else value)).
Proof.
  intros Hc Ht w'.
  assert (kconfig_name (py "HDF_EXT")) as Hm
    by (apply kconfig_name_by_compute; reflexivity).
  unfold is_hwflow_sdt, bind. rewrite get_config_value_bool_run.
  subst w'. rewrite scan_after_update_clean by done.
  case_decide; reflexivity.
Qed.

End MoreHardwareFlow.

(** ** The properties above on concrete inputs *)

(** A BSP listing with one project and one stray directory. *)
Example get_plnx_projects_from_bsp_listing :
  let MetaDataDir := fun p : str => p ++ py "/.petalinux" in
  let listing :=
    py "proj/" ++ [LF] ++ py "proj/.petalinux/" ++ [LF]
    ++ py "proj/config.project" ++ [LF] ++ py "docs/" ++ [LF] in
  let runCmd := fun _ : str => Some (listing, @nil ascii) in
  get_plnx_projects_from_bsp MetaDataDir runCmd (py "board.bsp")
  = Some [py "proj"].
Proof. reflexivity. Qed.

(** A shell two levels below the project directory. *)
Lemma exit_not_plnx_project_nearest_witness :
  let MetaDataDir := fun p : str => p ++ py "/.petalinux" in
  let path_exists :=
    fun p : str => bool_decide (p = py "/home/u/proj/.petalinux") in
  exit_not_plnx_project MetaDataDir (py "/home/u/proj/build/tmp")
    (fun p => p) path_exists []
  = Some (Returned (py "/home/u/proj")).
Proof.
  intros MetaDataDir path_exists.
  apply (exit_not_plnx_project_nearest MetaDataDir
           (py "/home/u/proj/build/tmp") (fun p => p) path_exists 2).
  - intros [|[|i]] Hi; [reflexivity..|lia].
  - reflexivity.
Defined.

(** A shell in a directory tree without a project. *)
Lemma exit_not_plnx_project_outside_witness :
  exit_not_plnx_project (fun p : str => p ++ py "/.petalinux")
    (py "/tmp/work") (fun p => p) (fun _ => false) []
  = Some (SysExit 255).
Proof.
  apply (exit_not_plnx_project_outside (fun p : str => p ++ py "/.petalinux")
           (py "/tmp/work") (fun p => p) (fun _ => false)).
  intros i. reflexivity.
Defined.

(** A workspace below the project root. *)
Lemma get_workspace_path_value_witness :
  let w := world_of {[ SysConfFile sample_vars "/home/u/proj"
                       := py "CONFIG_DEVTOOL_WORKSPACE=" ++ [QUOTE]
                          ++ py "${PROOT}/components/yocto/workspace"
                          ++ [QUOTE] ++ [LF] ]} in
  ("$"%char ∉ py "/components/yocto/workspace")
  /\ ("$"%char ∉ py "/home/u/proj")
  /\ get_workspace_path sample_vars (py "CONFIG_DEVTOOL_WORKSPACE")
       "/home/u/proj" w
     = (w, Ok (py "/home/u/proj/components/yocto/workspace")).
Proof.
  intros w.
  assert ("$"%char ∉ @nil ascii) as Hpre by apply not_elem_of_nil.
  assert ("$"%char ∉ py "/components/yocto/workspace") as Hrest
    by (by apply not_elem_by_compute).
  assert ("$"%char ∉ py "/home/u/proj") as Hproot
    by (by apply not_elem_by_compute).
  split_and!; [done..|].
  destruct (get_workspace_path_value sample_vars
              (py "CONFIG_DEVTOOL_WORKSPACE") "/home/u/proj" []
              (py "/components/yocto/workspace") w Hpre Hrest Hproot)
    as [Hrun _].
  apply Hrun. left. reflexivity.
Defined.

(** A first entry under a new key. *)
Lemma add_dictkey_stores_witness :
  "ip" <> ""%string
  /\ (forall s, (∅ : dict) !! "eth0" <> Some (VStr s))
  /\ add_dictkey ∅ "eth0" "ip" (py "10.0.0.2") false (py ", ")
     = ({[ "eth0" := VDict {[ "ip" := py "10.0.0.2" ]} ]}, None).
Proof.
  assert ("ip" <> ""%string) as Hsub by discriminate.
  assert (forall s, (∅ : dict) !! "eth0" <> Some (VStr s)) as Hstr
    by (intros s; discriminate).
  split_and!; [done..|].
  destruct (add_dictkey_stores ∅ "eth0" "ip" (py "10.0.0.2") []
              (py ", ") Hsub Hstr) as (Hrun & _ & _).
  rewrite Hrun. reflexivity.
Defined.

(** Two values appended under a new sub-key. *)
Lemma add_dictkey_appends_witness :
  let Dict : dict := {[ "eth0" := VDict ∅ ]} in
  "ip" <> ""%string
  /\ Dict !! "eth0" = Some (VDict ∅)
  /\ dict_get2
       (add_dictkey (add_dictkey Dict "eth0" "ip" (py "a") true (py ", ")).1
          "eth0" "ip" (py "b") true (py ", ")).1 "eth0" "ip"
     = inr (py "a, b").
Proof.
  intros Dict.
  assert ("ip" <> ""%string) as Hsub by discriminate.
  assert (Dict !! "eth0" = Some (VDict ∅)) as Hk by reflexivity.
  split_and!; [done..|].
  destruct (add_dictkey_appends Dict "eth0" "ip" ∅ (py "a") (py "b")
              (py ", ") Hsub Hk) as (_ & Hget & _).
  exact Hget.
Defined.

(** A device-tree project. *)
Lemma is_hwflow_sdt_after_update_witness :
  clean_value (py "HDF_EXT") (py "dts")
  /\ Forall terminated (lines_of one_line_cfg (MetaDataFile sample_vars "proj"))
  /\ (is_hwflow_sdt sample_vars "proj"
        (update_config_value (py "HDF_EXT") (py "dts")
           (MetaDataFile sample_vars "proj") one_line_cfg).1).2
     = Ok (py "sdt").
Proof.
  assert (clean_value (py "HDF_EXT") (py "dts")) as Hc.
  { split_and!; [discriminate|by apply single_line_by_compute|discriminate
                |reflexivity|reflexivity|by apply not_elem_by_compute]. }
  assert (Forall terminated
            (lines_of one_line_cfg (MetaDataFile sample_vars "proj"))) as Ht
    by constructor.
  split_and!; [done..|].
  rewrite (is_hwflow_sdt_after_update sample_vars "proj" (py "dts")
             one_line_cfg Hc Ht).
  reflexivity.
Defined.
